(** * libsonyapi: the [Camera] class of [libsonyapi/camera.py]

    A shallow embedding of the Sony camera client: SSDP discovery, the
    UPnP device descriptor walk, the JSON-RPC dispatcher [do] and the
    construction sequence [__init__], followed by the properties of the
    specification that were checked against them.

    Layout: Python strings and values first, then exceptions and the
    effect monad, then one section with the methods of [Camera] over an
    arbitrary environment, then the theorems. *)

From Stdlib Require Import List ZArith NArith Bool Ascii String Lia.
From Stdlib Require Import DecimalString DecimalZ DecimalPos SpecFloat.
Import ListNotations.

Set Implicit Arguments.

(* ===================================================================== *)
(** ** Python [str]                                                       *)
(* ===================================================================== *)

(** A Python [str] is a sequence of Unicode code points. *)
Definition pystr := list N.

(** Literals of the source are ASCII; [str "abc"] is the [str] object
    written ["abc"] in camera.py. *)
Definition str (s : string) : pystr :=
  List.map N_of_ascii (list_ascii_of_string s).

Definition LF : N := 10%N.
Definition CR : N := 13%N.
Definition SP : N := 32%N.

Definition pystr_eqb (a b : pystr) : bool :=
  if list_eq_dec N.eq_dec a b then true else false.

(** [prefix_of p s]: [s.startswith(p)]. *)
Fixpoint prefix_of (p s : pystr) : bool :=
  match p, s with
  | [], _ => true
  | _ :: _, [] => false
  | a :: p', b :: s' => N.eqb a b && prefix_of p' s'
  end.

(** [str_in needle hay]: the operator [needle in hay] on two [str]. *)
Fixpoint str_in (needle hay : pystr) : bool :=
  prefix_of needle hay ||
  match hay with
  | [] => false
  | _ :: hay' => str_in needle hay'
  end.

(** [split_on sep s]: [s.split(sep)] for a separator of one character.
    The result is never empty; adjacent separators give empty pieces. *)
Fixpoint split_on (sep : N) (s : pystr) : list pystr :=
  match s with
  | [] => [[]]
  | c :: s' =>
      if N.eqb c sep then [] :: split_on sep s'
      else match split_on sep s' with
           | [] => [[c]]
           | piece :: pieces => (c :: piece) :: pieces
           end
  end.

(** [str.isspace] on one character: the code points CPython lists in
    [_PyUnicode_IsWhitespace]. *)
Definition is_space (c : N) : bool :=
  (((9 <=? c) && (c <=? 13)) || ((28 <=? c) && (c <=? 32)) ||
   (c =? 133) || (c =? 160) || (c =? 5760) ||
   ((8192 <=? c) && (c <=? 8202)) || (c =? 8232) || (c =? 8233) ||
   (c =? 8239) || (c =? 8287) || (c =? 12288))%N.

Fixpoint lstrip (s : pystr) : pystr :=
  match s with
  | [] => []
  | c :: s' => if is_space c then lstrip s' else s
  end.

Definition rstrip (s : pystr) : pystr := rev (lstrip (rev s)).

(** [strip s]: [s.strip()]. *)
Definition strip (s : pystr) : pystr := rstrip (lstrip s).

(** [join sep parts]: [sep.join(parts)]. *)
Fixpoint join (sep : pystr) (parts : list pystr) : pystr :=
  match parts with
  | [] => []
  | [p] => p
  | p :: rest => p ++ sep ++ join sep rest
  end.

(** [ws_tokens s]: [s.split()], the maximal runs of non-whitespace
    characters.  The source never calls it; it states what a
    whitespace-delimited token is. *)
Fixpoint ws_tokens_aux (cur : pystr) (s : pystr) : list pystr :=
  match s with
  | [] => match cur with [] => [] | _ => [rev cur] end
  | c :: s' =>
      if is_space c
      then match cur with
           | [] => ws_tokens_aux [] s'
           | _ => rev cur :: ws_tokens_aux [] s'
           end
      else ws_tokens_aux (c :: cur) s'
  end.

Definition ws_tokens (s : pystr) : list pystr := ws_tokens_aux [] s.

(** Decimal rendering of an [int]: [str(z)]. *)
Definition int_str (z : Z) : pystr :=
  str (NilZero.string_of_int (Z.to_int z)).

(* ===================================================================== *)
(** ** Python values                                                      *)
(* ===================================================================== *)

(** The values that travel through the dispatcher: what [json.loads]
    returns and what is passed as [param].  A [dict] keeps its insertion
    order and has [str] keys, as every JSON object does; lookup takes the
    first binding of a key.  Other Python objects are outside this
    universe. *)
#[warnings="-register-all"]
Inductive pyval : Type :=
| PNone
| PBool (b : bool)
| PInt (z : Z)
| PFloat (f : spec_float)
| PStr (s : pystr)
| PList (l : list pyval)
| PDict (kvs : list (pystr * pyval)).

Fixpoint assoc {V : Type} (key : pystr) (kvs : list (pystr * V)) : option V :=
  match kvs with
  | [] => None
  | (k, v) :: rest => if pystr_eqb k key then Some v else assoc key rest
  end.

(** [float_eq_int f z]: [f == z] for a float and an int, which Python
    decides on the exact values. *)
Definition float_eq_int (f : spec_float) (z : Z) : bool :=
  match f with
  | S754_zero _ => (z =? 0)%Z
  | S754_finite s m e =>
      let sm := if s then Z.neg m else Z.pos m in
      if (0 <=? e)%Z then (sm * 2 ^ e =? z)%Z else (sm =? z * 2 ^ (- e))%Z
  | _ => false
  end.

(** [eq_int v z]: the comparison [v == z] against an int literal.  A
    bool is an int in Python ([True == 1]). *)
Definition eq_int (v : pyval) (z : Z) : bool :=
  match v with
  | PInt x => (x =? z)%Z
  | PBool b => ((if b then 1 else 0) =? z)%Z
  | PFloat f => float_eq_int f z
  | _ => false
  end.

(** [eq_str v s]: the comparison [v == s] against a str literal. *)
Definition eq_str (v : pyval) (s : pystr) : bool :=
  match v with
  | PStr x => pystr_eqb x s
  | _ => false
  end.

(** *** [repr] and [str] *)

Section Repr.

(** Two facts of the interpreter that the source relies on without
    fixing them: which non-ASCII characters [repr] prints as they are
    ([str.isprintable]), and the shortest decimal form of a float. *)
Variable isprintable : N -> bool.
Variable float_repr : spec_float -> pystr.

Definition hex_digit (n : N) : N :=
  (if n <? 10 then 48 + n else 87 + n)%N.

Fixpoint hex_fixed (width : nat) (n : N) : pystr :=
  match width with
  | O => []
  | S w => hex_fixed w (n / 16)%N ++ [hex_digit (n mod 16)%N]
  end.

Definition QUOTE : N := 39%N.
Definition DQUOTE : N := 34%N.
Definition BACKSLASH : N := 92%N.

Definition repr_char (quote c : N) : pystr :=
  if (c =? quote)%N || (c =? BACKSLASH)%N then [BACKSLASH; c]
  else if (c =? 9)%N then str "\t"
  else if (c =? 10)%N then str "\n"
  else if (c =? 13)%N then str "\r"
  else if (c <? 32)%N || (c =? 127)%N then str "\x" ++ hex_fixed 2 c
  else if (c <? 127)%N then [c]
  else if isprintable c then [c]
  else if (c <? 256)%N then str "\x" ++ hex_fixed 2 c
  else if (c <? 65536)%N then str "\u" ++ hex_fixed 4 c
  else str "\U" ++ hex_fixed 8 c.

(** [repr] of a str: single quotes unless the text has a single quote
    and no double quote. *)
Definition repr_str (s : pystr) : pystr :=
  let quote :=
    if existsb (N.eqb QUOTE) s && negb (existsb (N.eqb DQUOTE) s)
    then DQUOTE else QUOTE in
  [quote] ++ flat_map (repr_char quote) s ++ [quote].

Fixpoint py_repr (v : pyval) : pystr :=
  match v with
  | PNone => str "None"
  | PBool b => if b then str "True" else str "False"
  | PInt z => int_str z
  | PFloat f => float_repr f
  | PStr s => repr_str s
  | PList l => str "[" ++ join (str ", ") (List.map py_repr l) ++ str "]"
  | PDict kvs =>
      str "{" ++
      join (str ", ")
        (List.map (fun kv => repr_str (fst kv) ++ str ": " ++ py_repr (snd kv)) kvs)
      ++ str "}"
  end.

(** [py_str v]: [str(v)], which is also what ["{}".format(v)] and an
    f-string field [{v}] produce for these types. *)
Definition py_str (v : pyval) : pystr :=
  match v with
  | PStr s => s
  | _ => py_repr v
  end.

End Repr.

(* ===================================================================== *)
(** ** Exceptions                                                         *)
(* ===================================================================== *)

Inductive exn_class : Type :=
(* the six classes declared at the end of camera.py *)
| NotAvailableError
| IllegalArgumentError
| InvalidActionError
| ForbiddenError
| OperationFailedError
| LongShootingError
(* builtins *)
| ConnectionError
| ValueError
| TypeError
| KeyError
| IndexError
| AttributeError
| OSError
| UnicodeDecodeError
(* libraries *)
| socket_timeout
| JSONDecodeError
| ParseError
| requests_ConnectionError
| requests_ProxyError
| requests_SSLError
| requests_ConnectTimeout
| requests_ReadTimeout
| requests_RequestException.

(** [Exc k v] is the object built by [K(v)] in a [raise] statement of
    camera.py.  [Lib k] is an exception of class [k] raised by the
    interpreter or by a library; its message is not modelled. *)
Inductive exn : Type :=
| Exc (k : exn_class) (arg : pyval)
| Lib (k : exn_class).

Definition class_of (e : exn) : exn_class :=
  match e with
  | Exc k _ => k
  | Lib k => k
  end.

(** [except socket.timeout] *)
Definition is_socket_timeout (e : exn) : bool :=
  match class_of e with
  | socket_timeout => true
  | _ => false
  end.

(** [except requests.exceptions.ConnectionError]: the class and its
    subclasses in requests/exceptions.py.  [ReadTimeout] derives from
    [Timeout] only. *)
Definition is_requests_ConnectionError (e : exn) : bool :=
  match class_of e with
  | requests_ConnectionError
  | requests_ProxyError
  | requests_SSLError
  | requests_ConnectTimeout => true
  | _ => false
  end.

Inductive result (A : Type) : Type :=
| Return (a : A)
| Raise (e : exn).

Arguments Return {A} a.
Arguments Raise {A} e.

(* ===================================================================== *)
(** ** Operators on values                                                *)
(* ===================================================================== *)

(** [py_in s c]: [s in c] for a str literal [s]. *)
Definition py_in (s : pystr) (c : pyval) : result bool :=
  match c with
  | PDict kvs => Return (existsb (fun kv => pystr_eqb (fst kv) s) kvs)
  | PList l => Return (existsb (fun x => eq_str x s) l)
  | PStr t => Return (str_in s t)
  | _ => Raise (Lib TypeError)
  end.

(** [getitem_key c k]: [c[k]] for a str literal [k]. *)
Definition getitem_key (c : pyval) (k : pystr) : result pyval :=
  match c with
  | PDict kvs =>
      match assoc k kvs with
      | Some v => Return v
      | None => Raise (Lib KeyError)
      end
  | _ => Raise (Lib TypeError)
  end.

(** Python indexing of a sequence of length [n] by [i]: a negative
    index counts from the end. *)
Definition index {A : Type} (l : list A) (i : Z) : option A :=
  let n := Z.of_nat (List.length l) in
  let j := if (i <? 0)%Z then (i + n)%Z else i in
  if (0 <=? j)%Z && (j <? n)%Z then nth_error l (Z.to_nat j) else None.

(** [getitem_index c i]: [c[i]] for an int literal [i]. *)
Definition getitem_index (c : pyval) (i : Z) : result pyval :=
  match c with
  | PList l =>
      match index l i with
      | Some v => Return v
      | None => Raise (Lib IndexError)
      end
  | PStr s =>
      match index s i with
      | Some ch => Return (PStr [ch])
      | None => Raise (Lib IndexError)
      end
  | PDict _ => Raise (Lib KeyError)
  | _ => Raise (Lib TypeError)
  end.

(** [dict_get c k d]: [c.get(k, d)]. *)
Definition dict_get (c : pyval) (k : pystr) (d : pyval) : result pyval :=
  match c with
  | PDict kvs =>
      match assoc k kvs with
      | Some v => Return v
      | None => Return d
      end
  | _ => Raise (Lib AttributeError)
  end.

(** [py_len c]: [len(c)]. *)
Definition py_len (c : pyval) : result nat :=
  match c with
  | PList l => Return (List.length l)
  | PStr s => Return (List.length s)
  | PDict kvs => Return (List.length kvs)
  | _ => Raise (Lib TypeError)
  end.

(** [add_str a b]: [a + b] where [b] is a str. *)
Definition add_str (a : pyval) (b : pystr) : result pystr :=
  match a with
  | PStr s => Return (s ++ b)
  | _ => Raise (Lib TypeError)
  end.

(** [radd_str a b]: [a + b] where [a] is a str. *)
Definition radd_str (a : pystr) (b : pyval) : result pystr :=
  match b with
  | PStr s => Return (a ++ s)
  | _ => Raise (Lib TypeError)
  end.

(* ===================================================================== *)
(** ** ElementTree                                                        *)
(* ===================================================================== *)

(** An [xml.etree.ElementTree.Element]: its tag in the ["{namespace}local"]
    form, its text (None for an element without text) and its children
    in document order. *)
#[warnings="-register-all"]
Inductive element : Type :=
| Element (tag : pystr) (text : option pystr) (children : list element).

Definition tag (e : element) : pystr :=
  match e with Element t _ _ => t end.

Definition text (e : element) : option pystr :=
  match e with Element _ t _ => t end.

Definition children (e : element) : list element :=
  match e with Element _ _ c => c end.

(** One step of an ElementPath: the children with the given tag of each
    element selected so far, in document order. *)
Definition select_child (t : pystr) (selected : list element) : list element :=
  flat_map (fun e => filter (fun c => pystr_eqb (tag c) t) (children e)) selected.

(** [find path e]: [e.find(path)] for a path of tags separated by ["/"],
    the first element that [e.iterfind(path)] yields. *)
Definition find (path : pystr) (e : element) : option element :=
  hd_error (fold_left (fun selected t => select_child t selected)
                      (split_on 47%N path) [e]).

(** [e.text] where [e] is the result of a [find]. *)
Definition text_of (e : option element) : result (option pystr) :=
  match e with
  | Some x => Return (text x)
  | None => Raise (Lib AttributeError)
  end.

(* ===================================================================== *)
(** ** The environment                                                    *)
(* ===================================================================== *)

(** What the camera module does to the outside.  Timeouts are in
    milliseconds: [settimeout(2)] is [EvSetTimeout 2000] and
    [timeout=0.2] is [Some 200]. *)
Inductive event : Type :=
| EvSocket
| EvSetSockOpt (optname : Z) (value : pystr)
| EvSetTimeout (timeout_ms : Z)
| EvSendTo (payload : pystr) (host : pystr) (port : Z)
| EvRecvFrom (bufsize : Z)
| EvGet (url : pystr) (timeout_ms : option Z)
| EvPost (url : pystr) (json : pyval).

(** A received UDP payload, by what [data.decode()] makes of it. *)
Inductive datagram : Type :=
| Utf8 (decoded : pystr)
| NotUtf8.

(** The body of an HTTP reply, by what the parsers make of it. *)
Inductive content : Type :=
| Json (v : pyval)
| Xml (root : element)
| OtherText
| Binary.

(** [json.loads(request.content)] *)
Definition json_loads (c : content) : result pyval :=
  match c with
  | Json v => Return v
  | Binary => Raise (Lib UnicodeDecodeError)
  | _ => Raise (Lib JSONDecodeError)
  end.

(** [ET.fromstring(str(request.content.decode()))] *)
Definition xml_fromstring (c : content) : result element :=
  match c with
  | Xml e => Return e
  | Binary => Raise (Lib UnicodeDecodeError)
  | _ => Raise (Lib ParseError)
  end.

(** Everything camera.py does not decide: two facts of the interpreter,
    the platform's socket module, and the network.  The replies to HTTP
    requests may depend on all that happened before. *)
Record World : Type := {
  w_isprintable : N -> bool;
  w_float_repr : spec_float -> pystr;
  (** the value of [socket.SO_BINDTODEVICE] where the attribute exists *)
  w_SO_BINDTODEVICE : option Z;
  w_socket : option exn;
  w_setsockopt : Z -> pystr -> option exn;
  w_sendto : option exn;
  (** [requests.get(url, timeout=...)] and [requests.post(url, body)],
      the body being [json.dumps] of the given value *)
  w_get : list event -> pystr -> option Z -> result content;
  w_post : list event -> pystr -> pyval -> result content
}.

(** The run-time state: what was done so far, and the datagrams that
    will still reach the socket, in order of arrival; once they are
    consumed the next [recvfrom] times out. *)
Record state : Type := {
  trace : list event;
  inbox : list datagram
}.

(* ===================================================================== *)
(** ** The effect monad                                                   *)
(* ===================================================================== *)

Definition M (A : Type) : Type := state -> result A * state.

Definition ret {A : Type} (a : A) : M A := fun st => (Return a, st).

Definition raise {A : Type} (e : exn) : M A := fun st => (Raise e, st).

Definition bind {A B : Type} (m : M A) (k : A -> M B) : M B :=
  fun st =>
    match m st with
    | (Return a, st') => k a st'
    | (Raise e, st') => (Raise e, st')
    end.

Definition lift {A : Type} (r : result A) : M A := fun st => (r, st).

(** [try: body except <class>: handler] *)
Definition try_except {A : Type} (body : M A) (caught : exn -> bool)
           (handler : M A) : M A :=
  fun st =>
    match body st with
    | (Return a, st') => (Return a, st')
    | (Raise e, st') => if caught e then handler st' else (Raise e, st')
    end.

(** An action on the outside that returns nothing and may fail. *)
Definition perform (ev : event) (failure : option exn) : M unit :=
  fun st =>
    let st' := {| trace := trace st ++ [ev]; inbox := inbox st |} in
    match failure with
    | None => (Return tt, st')
    | Some e => (Raise e, st')
    end.

Declare Scope monad_scope.
Delimit Scope monad_scope with monad.
Notation "x <- m ;; k" := (bind m (fun x => k))
  (at level 61, m at next level, right associativity) : monad_scope.
Notation "m ;; k" := (bind m (fun _ => k))
  (at level 61, right associativity) : monad_scope.

(* ===================================================================== *)
(** ** class Camera                                                       *)
(* ===================================================================== *)

(** The [api_service_urls] dict of [connect]: the text of an element may
    be None, for a key as for a value. *)
Definition services_dict : Type := list (option pystr * option pystr).

Definition key_eqb (a b : option pystr) : bool :=
  match a, b with
  | Some x, Some y => pystr_eqb x y
  | None, None => true
  | _, _ => false
  end.

(** [d[k] = v]: a new key goes last, a known key keeps its place. *)
Fixpoint dict_set (d : services_dict) (k v : option pystr) : services_dict :=
  match d with
  | [] => [(k, v)]
  | (k', v') :: rest =>
      if key_eqb k' k then (k', v) :: rest else (k', v') :: dict_set rest k v
  end.

Fixpoint dict_lookup (d : services_dict) (k : option pystr) : option (option pystr) :=
  match d with
  | [] => None
  | (k', v') :: rest => if key_eqb k' k then Some v' else dict_lookup rest k
  end.

(** The attributes of a constructed [Camera]. *)
Record Camera : Type := {
  _network_interface : option pystr;
  xml_url : pystr;
  name : option pystr;
  api_version : option pystr;
  services : services_dict;
  camera_endpoint_url : pystr;
  available_apis : pyval
}.

Definition CRLF : pystr := [CR; LF].

Definition M_SEARCH : pystr :=
  str "M-SEARCH * HTTP/1.1" ++ CRLF ++
  str "HOST: 239.255.255.250:1900" ++ CRLF ++
  str "MAN: " ++ [DQUOTE] ++ str "ssdp:discover" ++ [DQUOTE] ++ str " " ++ CRLF ++
  str "MX: 2" ++ CRLF ++
  str "ST: urn:schemas-sony-com:service:ScalarWebAPI:1" ++ CRLF ++
  CRLF.

Definition FRIENDLY_NAME : pystr :=
  str "{urn:schemas-upnp-org:device-1-0}device/{urn:schemas-upnp-org:device-1-0}friendlyName".

Definition API_VERSION : pystr :=
  str "{urn:schemas-upnp-org:device-1-0}device/{urn:schemas-sony-com:av}X_ScalarWebAPI_DeviceInfo/{urn:schemas-sony-com:av}X_ScalarWebAPI_Version".

Definition SERVICE_LIST : pystr :=
  str "{urn:schemas-upnp-org:device-1-0}device/{urn:schemas-sony-com:av}X_ScalarWebAPI_DeviceInfo/{urn:schemas-sony-com:av}X_ScalarWebAPI_ServiceList".

Definition SERVICE_TYPE : pystr :=
  str "{urn:schemas-sony-com:av}X_ScalarWebAPI_ServiceType".

Definition ACTION_LIST_URL : pystr :=
  str "{urn:schemas-sony-com:av}X_ScalarWebAPI_ActionList_URL".

(** Lines 60-62: the scan of the lines of one decoded datagram.  [None]
    when no line has the word, otherwise what the [return] statement
    evaluates to. *)
Fixpoint scan_lines (lines : list pystr) : option (result pystr) :=
  match lines with
  | [] => None
  | item :: rest =>
      if str_in (str "LOCATION") item
      then Some (match index (split_on SP (strip item)) 1 with
                 | Some url => Return url
                 | None => Raise (Lib IndexError)
                 end)
      else scan_lines rest
  end.

(** Lines 56-62: the [while True] loop, one turn per datagram that
    arrives. *)
Fixpoint receive (arrivals : list datagram) (done : list event)
  : result pystr * state :=
  let done' := done ++ [EvRecvFrom 65507] in
  match arrivals with
  | [] => (Raise (Lib socket_timeout), {| trace := done'; inbox := [] |})
  | NotUtf8 :: rest =>
      (Raise (Lib UnicodeDecodeError), {| trace := done'; inbox := rest |})
  | Utf8 decoded_data :: rest =>
      match scan_lines (split_on LF decoded_data) with
      | Some r => (r, {| trace := done'; inbox := rest |})
      | None => receive rest done'
      end
  end.

(** Lines 84-91: the loop over the children of the service list. *)
Fixpoint collect_services (service_list : list element)
         (api_service_urls : services_dict) : result services_dict :=
  match service_list with
  | [] => Return api_service_urls
  | service :: rest =>
      match text_of (find SERVICE_TYPE service) with
      | Raise e => Raise e
      | Return service_type =>
          match text_of (find ACTION_LIST_URL service) with
          | Raise e => Raise e
          | Return action_url =>
              collect_services rest
                (dict_set api_service_urls service_type action_url)
          end
      end
  end.

(** Line 15: [self.services["camera"] + "/camera"] *)
Definition endpoint_of (services : services_dict) : result pystr :=
  match dict_lookup services (Some (str "camera")) with
  | None => Raise (Lib KeyError)
  | Some None => Raise (Lib TypeError)
  | Some (Some url) => Return (url ++ str "/camera")
  end.

Definition opt_str (o : option pystr) : pyval :=
  match o with
  | Some s => PStr s
  | None => PNone
  end.

(** Lines 119-121: the request object that [json.dumps] serializes. *)
Definition json_request (method : pystr) (param : pyval) : pyval :=
  let param :=
    match param with
    | PList _ => param
    | _ => PList [param]
    end in
  PDict [(str "method", PStr method);
         (str "params", param);
         (str "id", PInt 1);
         (str "version", PStr (str "1.0"))].

Section CameraMethods.

Variable w : World.

Local Open Scope monad_scope.

(** ["{}".format(v)] and the fields of an f-string. *)
Definition format (v : pyval) : pystr :=
  py_str (w_isprintable w) (w_float_repr w) v.

(** [requests.get(url)] and [requests.get(url, timeout=...)], as far as
    [.content]. *)
Definition requests_get (url : pystr) (timeout_ms : option Z) : M content :=
  fun st =>
    (w_get w (trace st) url timeout_ms,
     {| trace := trace st ++ [EvGet url timeout_ms]; inbox := inbox st |}).

(** [requests.post(url, json.dumps(json))], as far as [.content]. *)
Definition requests_post (url : pystr) (json : pyval) : M content :=
  fun st =>
    (w_post w (trace st) url json,
     {| trace := trace st ++ [EvPost url json]; inbox := inbox st |}).

(** Lines 22-65.  [network_interface] is [self._network_interface]. *)
Definition discover (network_interface : option pystr) : M pystr :=
  let msg := M_SEARCH in
  let SO_BINDTODEVICE :=
    match w_SO_BINDTODEVICE w with
    | Some opt => opt
    | None => 25%Z
    end in
  perform EvSocket (w_socket w) ;;
  match network_interface with
  | Some iface =>
      perform (EvSetSockOpt SO_BINDTODEVICE iface)
              (w_setsockopt w SO_BINDTODEVICE iface)
  | None => ret tt
  end ;;
  perform (EvSetTimeout 2000) None ;;
  perform (EvSendTo msg (str "239.255.255.250") 1900) (w_sendto w) ;;
  try_except
    (fun st => receive (inbox st) (trace st))
    is_socket_timeout
    (raise (Exc ConnectionError
                (PStr (str "You are not connected to the camera's wifi.")))).

(** Lines 67-93. *)
Definition connect (xml_url : pystr)
  : M (option pystr * option pystr * services_dict) :=
  device_xml_request <- requests_get xml_url None ;;
  xml <- lift (xml_fromstring device_xml_request) ;;
  name <- lift (text_of (find FRIENDLY_NAME xml)) ;;
  api_version <- lift (text_of (find API_VERSION xml)) ;;
  let service_list := find SERVICE_LIST xml in
  api_service_urls <-
    lift (match service_list with
          | Some l => collect_services (children l) []
          | None => Raise (Lib TypeError)
          end) ;;
  ret (name, api_version, api_service_urls).

(** Lines 95-102. *)
Definition connected (self : Camera) : M bool :=
  try_except
    (requests_get (camera_endpoint_url self) (Some 200%Z) ;; ret true)
    is_requests_ConnectionError
    (ret false).

(** Lines 104-114. *)
Definition info (self : Camera) : pyval :=
  PDict [(str "name", opt_str (name self));
         (str "api version", opt_str (api_version self));
         (str "supported services",
           PList (List.map (fun kv => opt_str (fst kv)) (services self)));
         (str "available apis", available_apis self)].

(** Lines 116-125.  Of [self] the method reads
    [self.camera_endpoint_url] only, which is passed in its place. *)
Definition _post_request (camera_endpoint_url : pystr)
           (method : pystr) (param : pyval) : M pyval :=
  request <- requests_post camera_endpoint_url (json_request method param) ;;
  response <- lift (json_loads request) ;;
  ret response.

(** Lines 131-166: what [do] makes of the response. *)
Definition normalize (param response : pyval) : result pyval :=
  match py_in (str "error") response with
  | Raise e => Raise e
  | Return true =>
      match getitem_key response (str "error") with
      | Raise e => Raise e
      | Return error =>
      match getitem_index error 0 with
      | Raise e => Raise e
      | Return error_code =>
      match getitem_index error (-1) with
      | Raise e => Raise e
      | Return error_message =>
          if eq_int error_code 1 then
            Raise (Exc NotAvailableError error_message)
          else if eq_int error_code 3 then
            match add_str error_message (str ": " ++ format param) with
            | Return m => Raise (Exc IllegalArgumentError (PStr m))
            | Raise e => Raise e
            end
          else if eq_int error_code 12 then
            match radd_str (str "Invalid action: ") error_message with
            | Return m => Raise (Exc InvalidActionError (PStr m))
            | Raise e => Raise e
            end
          else if eq_int error_code 403 then
            Raise (Exc ForbiddenError error_message)
          else if eq_int error_code 500 then
            Raise (Exc OperationFailedError error_message)
          else if eq_int error_code 40403 then
            Raise (Exc LongShootingError error_message)
          else
            Raise (Exc ValueError
                       (PStr (str "Error " ++ format error_code ++
                              str ": " ++ format error_message)))
      end end end
  | Return false =>
      match dict_get response (str "result") (PList []) with
      | Raise e => Raise e
      | Return result =>
          match py_len result with
          | Raise e => Raise e
          | Return 0 => Return (PBool true)
          | Return 1 => getitem_index result 0
          | Return _ => Return result
          end
      end
  end.

(** Lines 127-166. *)
Definition do (camera_endpoint_url : pystr)
           (method : pystr) (param : pyval) : M pyval :=
  response <- _post_request camera_endpoint_url method param ;;
  lift (normalize param response).

(** Lines 8-20.  The attributes are set as the steps succeed; the
    object exists for the caller only when the last step has. *)
Definition __init__ (network_interface : option pystr) : M Camera :=
  xml_url <- discover network_interface ;;
  r <- connect xml_url ;;
  let '(name, api_version, services) := r in
  camera_endpoint_url <- lift (endpoint_of services) ;;
  available_apis <- do camera_endpoint_url (str "getAvailableApiList") (PList []) ;;
  start <- lift (py_in (str "startRecMode") available_apis) ;;
  (if start : bool
   then do camera_endpoint_url (str "startRecMode") (PList []) ;; ret tt
   else ret tt) ;;
  ret {| _network_interface := network_interface;
         xml_url := xml_url;
         name := name;
         api_version := api_version;
         services := services;
         camera_endpoint_url := camera_endpoint_url;
         available_apis := available_apis |}.

End CameraMethods.

(* ===================================================================== *)
(** ** Reading the runs                                                   *)
(* ===================================================================== *)

(** A fresh process: nothing done yet, [arrivals] on their way. *)
Definition fresh (arrivals : list datagram) : state :=
  {| trace := []; inbox := arrivals |}.

Definition did (st : state) (evs : list event) : state :=
  {| trace := trace st ++ evs; inbox := inbox st |}.

(** The socket option that line 49 uses on this platform. *)
Definition bind_option (w : World) : Z :=
  match w_SO_BINDTODEVICE w with
  | Some opt => opt
  | None => 25%Z
  end.

(** What lines 45-53 do when nothing fails. *)
Definition setup_events (w : World) (network_interface : option pystr)
  : list event :=
  [EvSocket] ++
  match network_interface with
  | Some iface => [EvSetSockOpt (bind_option w) iface]
  | None => []
  end ++
  [EvSetTimeout 2000; EvSendTo M_SEARCH (str "239.255.255.250") 1900].

(** The first failure of lines 45-53, if any. *)
Definition setup_failure (w : World) (network_interface : option pystr)
  : option exn :=
  match w_socket w with
  | Some e => Some e
  | None =>
      match match network_interface with
            | Some iface => w_setsockopt w (bind_option w) iface
            | None => None
            end with
      | Some e => Some e
      | None => w_sendto w
      end
  end.

Definition is_socket_event (ev : event) : bool :=
  match ev with
  | EvGet _ _ | EvPost _ _ => false
  | _ => true
  end.

Definition NOT_CONNECTED : exn :=
  Exc ConnectionError (PStr (str "You are not connected to the camera's wifi.")).

(** *** A camera on the bench *)

Definition crlf_lines (lines : list string) : pystr :=
  flat_map (fun l => str l ++ CRLF) lines.

Definition SSDP_REPLY : pystr :=
  crlf_lines ["HTTP/1.1 200 OK";
              "CACHE-CONTROL: max-age=1800";
              "EXT: ";
              "LOCATION: http://192.168.122.1:64321/dd.xml";
              "SERVER: UPnP/1.0 SonyImagingDevice/1.0";
              "ST: urn:schemas-sony-com:service:ScalarWebAPI:1";
              ""]%string.

Definition upnp (local : string) : pystr :=
  str "{urn:schemas-upnp-org:device-1-0}" ++ str local.

Definition av (local : string) : pystr :=
  str "{urn:schemas-sony-com:av}" ++ str local.

Definition service_entry (type url : string) : element :=
  Element (av "X_ScalarWebAPI_Service") None
    [Element (av "X_ScalarWebAPI_ServiceType") (Some (str type)) [];
     Element (av "X_ScalarWebAPI_ActionList_URL") (Some (str url)) []].

Definition descriptor (service_list : list element) : element :=
  Element (upnp "root") None
    [Element (upnp "specVersion") None [];
     Element (upnp "device") None
       [Element (upnp "friendlyName") (Some (str "Cam1")) [];
        Element (av "X_ScalarWebAPI_DeviceInfo") None
          [Element (av "X_ScalarWebAPI_Version") (Some (str "2.0")) [];
           Element (av "X_ScalarWebAPI_ServiceList") None service_list]]].

(** A world where nothing fails, [GET] always yields the same document
    and [POST] is answered by [answer] from the request object. *)
Definition bench (document : content) (answer : pyval -> result content) : World :=
  {| w_isprintable := fun _ => false;
     w_float_repr := fun _ => str "nan";
     w_SO_BINDTODEVICE := Some 25%Z;
     w_socket := None;
     w_setsockopt := fun _ _ => None;
     w_sendto := None;
     w_get := fun _ _ _ => Return document;
     w_post := fun _ _ json => answer json |}.

Definition rpc_result (values : list pyval) : pyval :=
  PDict [(str "result", PList values); (str "id", PInt 1)].

Definition rpc_error (values : list pyval) : pyval :=
  PDict [(str "error", PList values); (str "id", PInt 1)].

(** The replies of a camera that knows three methods. *)
Definition camera_answer (json : pyval) : result content :=
  match getitem_key json (str "method") with
  | Return m =>
      if eq_str m (str "getAvailableApiList") then
        Return (Json (rpc_result
          [PList [PStr (str "getAvailableApiList");
                  PStr (str "startRecMode");
                  PStr (str "setIsoSpeedRate")]]))
      else if eq_str m (str "startRecMode") then
        Return (Json (rpc_result [PInt 0]))
      else if eq_str m (str "setIsoSpeedRate") then
        Return (Json (rpc_error [PInt 3; PStr (str "bad"); PStr (str "value")]))
      else
        Return (Json (rpc_error [PInt 12; PStr (str "No Such Method")]))
  | Raise e => Raise e
  end.

Definition sony : World :=
  bench (Xml (descriptor [service_entry "guide" "http://cam/sony";
                          service_entry "camera" "http://cam/sony"]))
        camera_answer.

(** A world whose camera answers every [POST] with [response]. *)
Definition answering (response : pyval) : World :=
  bench OtherText (fun _ => Return (Json response)).

(* ===================================================================== *)
(** ** The specification's wording, where it departs from the code        *)
(* ===================================================================== *)

(** "header lines for one starting with LOCATION ... the
    whitespace-delimited second token of that line". *)
Definition location_header (decoded : pystr) : option pystr :=
  match List.find (prefix_of (str "LOCATION")) (split_on LF decoded) with
  | Some line => nth_error (ws_tokens line) 1
  | None => None
  end.

(** "For every received SSDP datagram ... returns the whitespace-delimited
    second token of that line as the device XML URL". *)
Definition location_header_returned : Prop :=
  forall w network_interface st decoded rest url,
    setup_failure w network_interface = None ->
    inbox st = Utf8 decoded :: rest ->
    location_header decoded = Some url ->
    fst (discover w network_interface st) = Return url.

(** "every response whose body contains a result key bound to a
    sequence": True, the single element, or the whole sequence. *)
Definition unwrap (values : list pyval) : pyval :=
  match values with
  | [] => PBool true
  | [v] => v
  | _ => PList values
  end.

Definition result_key_decides : Prop :=
  forall w url method param st kvs values,
    w_post w (trace st) url (json_request method param)
      = Return (Json (PDict kvs)) ->
    assoc (str "result") kvs = Some (PList values) ->
    fst (do w url method param st) = Return (unwrap values).

(** "returns a boolean and never raises". *)
Definition connected_never_raises : Prop :=
  forall w self st, exists b : bool, fst (connected w self st) = Return b.

(** *** Inputs used below *)

Definition ENDPOINT : pystr := str "http://cam/sony/camera".

(** A reply with both members. *)
Definition BOTH_MEMBERS : pyval :=
  PDict [(str "result", PList []);
         (str "error", PList [PInt 1; PStr (str "Not Available Now")]);
         (str "id", PInt 1)].

Definition DD_XML : pystr := str "http://192.168.122.1:64321/dd.xml".

(** A reply with an earlier header that has the word inside. *)
Definition WORD_INSIDE : pystr :=
  crlf_lines ["HTTP/1.1 200 OK";
              "X-AV-LOCATION: rear panel";
              "LOCATION: http://192.168.122.1:64321/dd.xml";
              ""]%string.

(** A reply with two blanks after the colon. *)
Definition TWO_BLANKS : pystr :=
  crlf_lines ["HTTP/1.1 200 OK";
              "LOCATION:  http://192.168.122.1:64321/dd.xml";
              ""]%string.

(** A reply with a tab after the colon. *)
Definition TABBED : pystr :=
  str "HTTP/1.1 200 OK" ++ CRLF ++
  str "LOCATION:" ++ [9%N] ++ DD_XML ++ CRLF ++ CRLF.

Definition RECV : event := EvRecvFrom 65507.

(** A datagram of another device, without the header. *)
Definition NOTIFY : pystr :=
  crlf_lines ["NOTIFY * HTTP/1.1";
              "HOST: 239.255.255.250:1900";
              "NTS: ssdp:alive";
              ""]%string.

(** A camera that accepts connections and then stays silent. *)
Definition stalled : World :=
  {| w_isprintable := fun _ => false;
     w_float_repr := fun _ => str "nan";
     w_SO_BINDTODEVICE := None;
     w_socket := None;
     w_setsockopt := fun _ _ => None;
     w_sendto := None;
     w_get := fun _ _ _ => Raise (Lib requests_ReadTimeout);
     w_post := fun _ _ _ => Raise (Lib requests_ReadTimeout) |}.

(** A camera whose descriptor lists no "camera" service. *)
Definition guide_only : World :=
  bench (Xml (descriptor [service_entry "guide" "http://cam/sony"]))
        camera_answer.

Definition GET_API_LIST : pystr := str "getAvailableApiList".
Definition START_REC_MODE : pystr := str "startRecMode".

Definition CAM1 : Camera :=
  {| _network_interface := None;
     xml_url := DD_XML;
     name := Some (str "Cam1");
     api_version := Some (str "2.0");
     services := [(Some (str "guide"), Some (str "http://cam/sony"));
                  (Some (str "camera"), Some (str "http://cam/sony"))];
     camera_endpoint_url := ENDPOINT;
     available_apis := PList [PStr (str "getAvailableApiList");
                              PStr (str "startRecMode");
                              PStr (str "setIsoSpeedRate")] |}.

(** A camera that lists startRecMode and answers every other call
    with error 1. *)
Definition refusing : World :=
  bench (Xml (descriptor [service_entry "camera" "http://cam/sony"]))
        (fun json =>
           match getitem_key json (str "method") with
           | Return m =>
               if eq_str m (str "getAvailableApiList") then
                 Return (Json (rpc_result [PList [PStr (str "startRecMode")]]))
               else
                 Return (Json (rpc_error [PInt 1; PStr (str "Not Available Now")]))
           | Raise e => Raise e
           end).

(** No line has the word. *)
Definition no_location (lines : list pystr) : Prop :=
  Forall (fun line => str_in (str "LOCATION") line = false) lines.

(** The object that [__init__] leaves when every step succeeds. *)
Definition built (network_interface : option pystr) (xml_url : pystr)
           (descr : option pystr * option pystr * services_dict)
           (camera_endpoint_url : pystr) (available_apis : pyval) : Camera :=
  {| _network_interface := network_interface;
     xml_url := xml_url;
     name := fst (fst descr);
     api_version := snd (fst descr);
     services := snd descr;
     camera_endpoint_url := camera_endpoint_url;
     available_apis := available_apis |}.

(** *** Reading a descriptor and a trace *)

(** The text of the service-type child of a service entry, and of its
    URL child; None also when the child is missing. *)
Definition service_type (service : element) : option pystr :=
  match find SERVICE_TYPE service with
  | Some e => text e
  | None => None
  end.

Definition action_url (service : element) : option pystr :=
  match find ACTION_LIST_URL service with
  | Some e => text e
  | None => None
  end.

(** The entry has a service-type child with the text [k]. *)
Definition has_type (k : option pystr) (service : element) : bool :=
  match find SERVICE_TYPE service with
  | Some e => key_eqb (text e) k
  | None => false
  end.

(** The entry has both children that lines 85-90 read. *)
Definition complete_entry (service : element) : bool :=
  match find SERVICE_TYPE service, find ACTION_LIST_URL service with
  | Some _, Some _ => true
  | _, _ => false
  end.

(** What lines 84-91 add to the dict for one entry. *)
Definition add_entry (d : services_dict) (service : element) : services_dict :=
  dict_set d (service_type service) (action_url service).

Definition is_sendto (ev : event) : bool :=
  match ev with
  | EvSendTo _ _ _ => true
  | _ => false
  end.

(** [int], [bool] and [float]: the values that can equal an int. *)
Definition is_number (v : pyval) : bool :=
  match v with
  | PInt _ | PBool _ | PFloat _ => true
  | _ => false
  end.

(** The values that have a [len]. *)
Definition is_sized (v : pyval) : bool :=
  match v with
  | PList _ | PStr _ | PDict _ => true
  | _ => false
  end.

Definition is_dict (v : pyval) : bool :=
  match v with
  | PDict _ => true
  | _ => false
  end.

Definition is_list (v : pyval) : bool :=
  match v with
  | PList _ => true
  | _ => false
  end.

Definition is_str (v : pyval) : bool :=
  match v with
  | PStr _ => true
  | _ => false
  end.

(** *** More worlds *)

(** A host without a route to the multicast group: [sendto] fails. *)
Definition offline : World :=
  {| w_isprintable := fun _ => false;
     w_float_repr := fun _ => str "nan";
     w_SO_BINDTODEVICE := None;
     w_socket := None;
     w_setsockopt := fun _ _ => None;
     w_sendto := Some (Lib OSError);
     w_get := fun _ _ _ => Raise (Lib requests_ConnectionError);
     w_post := fun _ _ _ => Raise (Lib requests_ConnectionError) |}.

(** A descriptor that lists the "camera" service twice. *)
Definition listed_twice : World :=
  bench (Xml (descriptor [service_entry "camera" "http://cam/old";
                          service_entry "guide" "http://cam/sony";
                          service_entry "camera" "http://cam/sony"]))
        camera_answer.

(** A service entry without its URL child. *)
Definition half_entry : element :=
  Element (av "X_ScalarWebAPI_Service") None
    [Element (av "X_ScalarWebAPI_ServiceType") (Some (str "camera")) []].

Definition half_listed : World :=
  bench (Xml (descriptor [service_entry "guide" "http://cam/sony"; half_entry]))
        camera_answer.

(** A "camera" entry whose URL element is empty. *)
Definition empty_url : World :=
  bench (Xml (descriptor
                [Element (av "X_ScalarWebAPI_Service") None
                   [Element (av "X_ScalarWebAPI_ServiceType") (Some (str "camera")) [];
                    Element (av "X_ScalarWebAPI_ActionList_URL") None []]]))
        camera_answer.

(** A camera that answers every call with an empty result. *)
Definition laconic : World :=
  bench (Xml (descriptor [service_entry "camera" "http://cam/sony"]))
        (fun _ => Return (Json (rpc_result []))).

(** A camera that answers every call with one text. *)
Definition terse : World :=
  bench (Xml (descriptor [service_entry "camera" "http://cam/sony"]))
        (fun _ => Return (Json (rpc_result [PStr (str "actStartRecMode,startRecModeV2")]))).

(** *** Reading a text back *)

Definition pystr_string (s : pystr) : string :=
  string_of_list_ascii (List.map ascii_of_N s).

(** The integer that a decimal text denotes, as [int(digits)] reads a
    text of digits with an optional minus sign. *)
Definition read_int (digits : pystr) : option Z :=
  option_map Z.of_int (NilZero.int_of_string (pystr_string digits)).

(** *** The table of the specification, as it is worded *)

(** "1 -> NotAvailable, 3 -> IllegalArgument, 12 -> InvalidAction,
    403 -> Forbidden, 500 -> OperationFailed, 40403 -> LongShooting,
    and any other code -> a generic error". *)
Definition table_class (code : pyval) : exn_class :=
  match code with
  | PInt z =>
      if (z =? 1)%Z then NotAvailableError
      else if (z =? 3)%Z then IllegalArgumentError
      else if (z =? 12)%Z then InvalidActionError
      else if (z =? 403)%Z then ForbiddenError
      else if (z =? 500)%Z then OperationFailedError
      else if (z =? 40403)%Z then LongShootingError
      else ValueError
  | _ => ValueError
  end.

(** "For every response containing an error key bound to a sequence
    ... an exception whose kind is determined exactly by the first
    element". *)
Definition error_code_decides : Prop :=
  forall w url method param st kvs error code,
    w_post w (trace st) url (json_request method param)
      = Return (Json (PDict kvs)) ->
    assoc (str "error") kvs = Some (PList error) ->
    index error 0 = Some code ->
    exists e,
      fst (do w url method param st) = Raise e /\
      class_of e = table_class code.

(** "For every call of do whose response is an error with code 3, the
    raised IllegalArgument error's message contains both the error
    message (the last element of the error sequence) and the serialized
    params". *)
Definition illegal_argument_raised : Prop :=
  forall w url method param st kvs error last,
    w_post w (trace st) url (json_request method param)
      = Return (Json (PDict kvs)) ->
    assoc (str "error") kvs = Some (PList error) ->
    index error 0 = Some (PInt 3) ->
    index error (-1) = Some last ->
    exists m,
      fst (do w url method param st) = Raise (Exc IllegalArgumentError (PStr m)) /\
      str_in (format w last) m = true /\
      str_in (format w param) m = true.

(** One layer of the monad, unfolded. *)
Ltac run_monad :=
  unfold bind, lift, ret, raise, try_except, perform,
         requests_get, requests_post, did.

Arguments str : simpl never.
Arguments format : simpl never.
Arguments int_str : simpl never.

(* ===================================================================== *)
(** ** Strings                                                            *)
(* ===================================================================== *)

Example split_on_ex :
  split_on SP (str "a  b") = [str "a"; []; str "b"].
Proof. reflexivity. Qed.

Example strip_ex : strip (str " x y" ++ [CR]) = str "x y".
Proof. reflexivity. Qed.

Example ws_tokens_ex :
  ws_tokens (str "a  b" ++ [9%N] ++ str "c ") = [str "a"; str "b"; str "c"].
Proof. reflexivity. Qed.

Example int_str_ex :
  int_str (-40403)%Z = str "-40403" /\ int_str 0%Z = str "0".
Proof. split; reflexivity. Qed.

Example repr_ex :
  py_repr (fun _ => false) (fun _ => [])
          (PList [PStr (str "it's"); PNone; PBool true; PInt (-7);
                  PDict [(str "k", PStr [9%N; 133%N])]])
  = [91%N; DQUOTE] ++ str "it's" ++ [DQUOTE] ++ str ", None, True, -7, {'k': '\t\x85'}]".
Proof. reflexivity. Qed.

Lemma pystr_eqb_eq (a b : pystr) : pystr_eqb a b = true <-> a = b.
Proof.
  unfold pystr_eqb. destruct (list_eq_dec N.eq_dec a b); split; congruence.
Qed.

Lemma pystr_eqb_refl (a : pystr) : pystr_eqb a a = true.
Proof. now apply pystr_eqb_eq. Qed.

Lemma prefix_of_app (p s : pystr) : prefix_of p (p ++ s) = true.
Proof.
  induction p as [|c p IH]; simpl; [reflexivity|].
  now rewrite N.eqb_refl, IH.
Qed.

Lemma prefix_of_spec (p s : pystr) :
  prefix_of p s = true <-> exists t, s = p ++ t.
Proof.
  split.
  - revert s. induction p as [|c p IH]; intros s H.
    + now exists s.
    + destruct s as [|d s]; simpl in H; [discriminate|].
      apply andb_true_iff in H as [Hc Hp]. apply N.eqb_eq in Hc. subst d.
      destruct (IH _ Hp) as [t ->]. now exists t.
  - intros [t ->]. apply prefix_of_app.
Qed.

Lemma str_in_prefix (needle hay : pystr) :
  prefix_of needle hay = true -> str_in needle hay = true.
Proof. intros H. destruct hay; simpl; now rewrite H. Qed.

(** [str_in] is the substring test. *)
Lemma str_in_spec (needle hay : pystr) :
  str_in needle hay = true <-> exists a b, hay = a ++ needle ++ b.
Proof.
  split.
  - induction hay as [|c hay IH]; simpl; intros H.
    + rewrite orb_false_r in H. apply prefix_of_spec in H as [t ->].
      now exists [], t.
    + apply orb_true_iff in H as [H|H].
      * apply prefix_of_spec in H as [t ->]. now exists [], t.
      * destruct (IH H) as (a & b & ->). now exists (c :: a), b.
  - intros (a & b & ->). induction a as [|c a IH].
    + rewrite app_nil_l. apply str_in_prefix, prefix_of_app.
    + simpl. rewrite IH. apply orb_true_r.
Qed.

Lemma str_in_left (a b : pystr) : str_in a (a ++ b) = true.
Proof. apply str_in_spec. now exists [], b. Qed.

Lemma str_in_right (a b : pystr) : str_in b (a ++ b) = true.
Proof. apply str_in_spec. exists a, []. now rewrite app_nil_r. Qed.

Lemma str_in_middle (a b c : pystr) : str_in b (a ++ b ++ c) = true.
Proof. apply str_in_spec. now exists a, c. Qed.

(** *** [strip] and [split] on a text with a known end *)

Lemma lstrip_app (x y : pystr) : lstrip x <> [] -> lstrip (x ++ y) = lstrip x ++ y.
Proof.
  induction x as [|c x IH]; simpl; intros H; [congruence|].
  destruct (is_space c); [now apply IH|reflexivity].
Qed.

Lemma lstrip_app_blank (x y : pystr) : lstrip x = [] -> lstrip (x ++ y) = lstrip y.
Proof.
  induction x as [|c x IH]; simpl; intros H; [reflexivity|].
  destruct (is_space c); [now apply IH|discriminate].
Qed.

Lemma lstrip_blank (x : pystr) :
  Forall (fun c => is_space c = true) x -> lstrip x = [].
Proof. induction 1 as [|c x Hc _ IH]; simpl; [reflexivity|now rewrite Hc]. Qed.

Lemma rstrip_app (a b : pystr) : rstrip b <> [] -> rstrip (a ++ b) = a ++ rstrip b.
Proof.
  unfold rstrip. intros H. rewrite rev_app_distr, lstrip_app.
  - now rewrite rev_app_distr, rev_involutive.
  - intros E. apply H. now rewrite E.
Qed.

Lemma rstrip_app_blank (a b : pystr) : rstrip b = [] -> rstrip (a ++ b) = rstrip a.
Proof.
  unfold rstrip. intros H. rewrite rev_app_distr, lstrip_app_blank; [reflexivity|].
  apply (f_equal (@rev N)) in H. now rewrite rev_involutive in H.
Qed.

Lemma rstrip_blank (x : pystr) :
  Forall (fun c => is_space c = true) x -> rstrip x = [].
Proof.
  intros H. unfold rstrip. rewrite lstrip_blank; [reflexivity|].
  now apply Forall_rev.
Qed.

Lemma rstrip_last (a : pystr) (c : N) :
  is_space c = false -> rstrip (a ++ [c]) = a ++ [c].
Proof.
  intros Hc. rewrite rstrip_app; unfold rstrip; simpl; rewrite Hc; [reflexivity|discriminate].
Qed.

Lemma split_on_plain (sep : N) (a : pystr) :
  Forall (fun c => N.eqb c sep = false) a -> split_on sep a = [a].
Proof.
  induction 1 as [|c a Hc _ IH]; simpl; [reflexivity|].
  now rewrite Hc, IH.
Qed.

Lemma split_on_app (sep : N) (a b : pystr) :
  Forall (fun c => N.eqb c sep = false) a ->
  split_on sep (a ++ sep :: b) = a :: split_on sep b.
Proof.
  induction 1 as [|c a Hc _ IH]; simpl.
  - now rewrite N.eqb_refl.
  - now rewrite Hc, IH.
Qed.

Lemma index_second {A : Type} (x y : A) (l : list A) : index (x :: y :: l) 1 = Some y.
Proof.
  unfold index. cbn [Z.ltb Z.compare].
  replace ((0 <=? 1)%Z && (1 <? Z.of_nat (List.length (x :: y :: l)))%Z) with true.
  - reflexivity.
  - symmetry. apply andb_true_iff. split; [reflexivity|].
    apply Z.ltb_lt. cbn [List.length]. lia.
Qed.

Lemma not_blank_not_SP (url : pystr) :
  Forall (fun c => is_space c = false) url ->
  Forall (fun c => N.eqb c SP = false) url.
Proof.
  apply Forall_impl. intros c Hc.
  destruct (N.eqb_spec c SP) as [->|]; [discriminate Hc|reflexivity].
Qed.

(** *** Decimal texts *)

Lemma pystr_string_str (s : string) : pystr_string (str s) = s.
Proof.
  unfold pystr_string, str. rewrite map_map.
  rewrite (map_ext _ (fun a => a)) by apply ascii_N_embedding.
  rewrite map_id. apply string_of_list_ascii_of_string.
Qed.

(** The decimal text of an integer reads back as that integer. *)
Lemma read_int_str (z : Z) : read_int (int_str z) = Some z.
Proof.
  unfold read_int, int_str. rewrite pystr_string_str.
  rewrite NilZero.isi.
  - cbn [option_map]. now rewrite DecimalZ.of_to.
  - destruct z; simpl; try discriminate.
    intros [= H]. now apply (DecimalPos.Unsigned.to_uint_nonnil p).
  - destruct z; simpl; try discriminate.
    intros [= H]. now apply (DecimalPos.Unsigned.to_uint_nonnil p).
Qed.

Example read_int_ex :
  read_int (str "40403") = Some 40403%Z /\ read_int (str "-7") = Some (-7)%Z /\
  read_int [] = None /\ read_int (str "x1") = None.
Proof. repeat split. Qed.

(* ===================================================================== *)
(** ** The dispatcher                                                     *)
(* ===================================================================== *)

Lemma assoc_existsb {V : Type} (key : pystr) (kvs : list (pystr * V)) :
  existsb (fun kv => pystr_eqb (fst kv) key) kvs =
  match assoc key kvs with Some _ => true | None => false end.
Proof.
  induction kvs as [|[k v] kvs IH]; simpl; [reflexivity|].
  destruct (pystr_eqb k key); simpl; [reflexivity|exact IH].
Qed.

(** One call of [do] is one POST of the request object, and the outcome
    is read off the reply. *)
Lemma do_run (w : World) (url method : pystr) (param : pyval) (st : state) :
  do w url method param st =
  (match w_post w (trace st) url (json_request method param) with
   | Raise e => Raise e
   | Return c =>
       match json_loads c with
       | Raise e => Raise e
       | Return response => normalize w param response
       end
   end,
   did st [EvPost url (json_request method param)]).
Proof.
  unfold do, _post_request. run_monad.
  destruct (w_post w (trace st) url (json_request method param)) as [c|e];
    [|reflexivity].
  destruct (json_loads c); reflexivity.
Qed.

(** A response object without an ["error"] key is read by its
    ["result"], an absent one counting as [[]]. *)
Lemma normalize_success (w : World) (param : pyval) (kvs : list (pystr * pyval)) :
  assoc (str "error") kvs = None ->
  normalize w param (PDict kvs) =
  match assoc (str "result") kvs with
  | Some result =>
      match py_len result with
      | Raise e => Raise e
      | Return 0 => Return (PBool true)
      | Return 1 => getitem_index result 0
      | Return _ => Return result
      end
  | None => Return (PBool true)
  end.
Proof.
  intros Herr. unfold normalize, py_in, dict_get.
  rewrite assoc_existsb, Herr.
  destruct (assoc (str "result") kvs); reflexivity.
Qed.

(** A response object with an ["error"] key never reaches the result. *)
Lemma normalize_error (w : World) (param : pyval) (kvs : list (pystr * pyval))
      (error : list pyval) (error_code error_message : pyval) :
  assoc (str "error") kvs = Some (PList error) ->
  index error 0 = Some error_code ->
  index error (-1) = Some error_message ->
  normalize w param (PDict kvs) =
  if eq_int error_code 1 then Raise (Exc NotAvailableError error_message)
  else if eq_int error_code 3 then
    match add_str error_message (str ": " ++ format w param) with
    | Return m => Raise (Exc IllegalArgumentError (PStr m))
    | Raise e => Raise e
    end
  else if eq_int error_code 12 then
    match radd_str (str "Invalid action: ") error_message with
    | Return m => Raise (Exc InvalidActionError (PStr m))
    | Raise e => Raise e
    end
  else if eq_int error_code 403 then Raise (Exc ForbiddenError error_message)
  else if eq_int error_code 500 then Raise (Exc OperationFailedError error_message)
  else if eq_int error_code 40403 then Raise (Exc LongShootingError error_message)
  else Raise (Exc ValueError
                (PStr (str "Error " ++ format w error_code ++
                       str ": " ++ format w error_message))).
Proof.
  intros Herr H0 H1. unfold normalize, py_in, getitem_key, getitem_index.
  rewrite assoc_existsb, Herr, H0, H1. reflexivity.
Qed.

Lemma index_single {A : Type} (v : A) : index [v] 0 = Some v.
Proof. reflexivity. Qed.

(** C10.  A response object with neither an ["error"] nor a ["result"]
    key makes [do] return True: the absent result counts as the empty
    sequence, and nothing is raised. *)
Theorem do_without_error_or_result
        (w : World) (url method : pystr) (param : pyval) (st : state)
        (kvs : list (pystr * pyval)) :
  w_post w (trace st) url (json_request method param)
    = Return (Json (PDict kvs)) ->
  assoc (str "error") kvs = None ->
  assoc (str "result") kvs = None ->
  do w url method param st =
  (Return (PBool true), did st [EvPost url (json_request method param)]).
Proof.
  intros Hpost Herr Hres.
  rewrite do_run, Hpost. cbn [json_loads].
  now rewrite normalize_success, Hres.
Qed.

Lemma do_without_error_or_result_witness :
  do (answering (PDict [(str "id", PInt 1)])) ENDPOINT (str "stopRecMode")
     (PList []) (fresh []) =
  (Return (PBool true),
   did (fresh []) [EvPost ENDPOINT (json_request (str "stopRecMode") (PList []))]).
Proof.
  apply (@do_without_error_or_result
           (answering (PDict [(str "id", PInt 1)])) ENDPOINT
           (str "stopRecMode") (PList []) (fresh []) [(str "id", PInt 1)]);
    reflexivity.
Defined.

(** C1, as amended.  A response object that has no ["error"] key and
    whose ["result"] key is bound to a sequence makes [do] return True
    for the empty sequence, the element itself for a sequence of one,
    and the whole sequence, in order, for a longer one. *)
Theorem do_result_unwrapped
        (w : World) (url method : pystr) (param : pyval) (st : state)
        (kvs : list (pystr * pyval)) (values : list pyval) :
  w_post w (trace st) url (json_request method param)
    = Return (Json (PDict kvs)) ->
  assoc (str "error") kvs = None ->
  assoc (str "result") kvs = Some (PList values) ->
  exists r,
    do w url method param st =
    (Return r, did st [EvPost url (json_request method param)]) /\
    (List.length values = 0 -> r = PBool true) /\
    (forall v, values = [v] -> r = v) /\
    (List.length values > 1 -> r = PList values).
Proof.
  intros Hpost Herr Hres.
  rewrite do_run, Hpost. cbn [json_loads].
  rewrite normalize_success, Hres by assumption. cbn [py_len].
  destruct values as [|v [|v' rest]]; cbn [List.length].
  - exists (PBool true). repeat split; try reflexivity.
    + intros v Hv. discriminate.
    + intros Hlen. inversion Hlen.
  - exists v. unfold getitem_index. rewrite index_single.
    repeat split.
    + intros Hlen. discriminate.
    + intros v0 Hv. now inversion Hv.
    + intros Hlen. lia.
  - exists (PList (v :: v' :: rest)). repeat split.
    + intros Hlen. discriminate.
    + intros v0 Hv. discriminate.
Qed.

Lemma do_result_unwrapped_witness :
  exists r,
    do (answering (rpc_result [PStr (str "a"); PStr (str "b")])) ENDPOINT
       (str "getEvent") (PBool false) (fresh []) =
    (Return r,
     did (fresh []) [EvPost ENDPOINT (json_request (str "getEvent") (PBool false))]) /\
    (List.length [PStr (str "a"); PStr (str "b")] = 0 -> r = PBool true) /\
    (forall v, [PStr (str "a"); PStr (str "b")] = [v] -> r = v) /\
    (List.length [PStr (str "a"); PStr (str "b")] > 1 ->
     r = PList [PStr (str "a"); PStr (str "b")]).
Proof.
  apply (@do_result_unwrapped
           (answering (rpc_result [PStr (str "a"); PStr (str "b")])) ENDPOINT
           (str "getEvent") (PBool false) (fresh [])
           [(str "result", PList [PStr (str "a"); PStr (str "b")]);
            (str "id", PInt 1)]);
    reflexivity.
Defined.

(** The three replies of the specification. *)
Example dispatch_examples :
  fst (do (answering (rpc_result [])) ENDPOINT (str "stopRecMode")
          (PList []) (fresh []))
  = Return (PBool true) /\
  fst (do (answering (rpc_result [PStr (str "ok")])) ENDPOINT (str "getEvent")
          (PList []) (fresh []))
  = Return (PStr (str "ok")) /\
  fst (do (answering (rpc_result [PStr (str "a"); PStr (str "b")])) ENDPOINT
          (str "getEvent") (PList []) (fresh []))
  = Return (PList [PStr (str "a"); PStr (str "b")]).
Proof. repeat split. Qed.

(** C1, as stated, fails: the ["error"] key is tested first, so a reply
    that carries a ["result"] sequence together with an ["error"] member
    is handled as an error.  For [{"result": [], "error": [1, "Not
    Available Now"], "id": 1}] the call raises NotAvailableError instead
    of returning True. *)
Lemma error_member_hides_result :
  assoc (str "result")
        [(str "result", PList []);
         (str "error", PList [PInt 1; PStr (str "Not Available Now")]);
         (str "id", PInt 1)]
    = Some (PList []) /\
  fst (do (answering BOTH_MEMBERS) ENDPOINT (str "getEvent") (PList []) (fresh []))
    = Raise (Exc NotAvailableError (PStr (str "Not Available Now"))) /\
  ~ result_key_decides.
Proof.
  split; [reflexivity|]. split; [reflexivity|].
  intros claim.
  specialize (claim (answering BOTH_MEMBERS) ENDPOINT (str "getEvent")
                    (PList []) (fresh []) _ []
                    eq_refl eq_refl).
  discriminate claim.
Qed.

(** C2, as amended.  A response object whose ["error"] key is bound to
    a sequence with an integer code first makes [do] raise, after its
    one POST, and nothing is returned.  The codes 1, 403, 500 and 40403
    give NotAvailableError, ForbiddenError, OperationFailedError and
    LongShootingError with the last element as argument; the codes 3
    and 12 give IllegalArgumentError and InvalidActionError when the
    last element is a string; any other code gives ValueError with the
    text "Error <code>: <message>", the code in decimal, from which it
    reads back, a string message as it is and an integer message in
    decimal. *)
Theorem do_error_kinds
        (w : World) (url method : pystr) (param : pyval) (st : state)
        (kvs : list (pystr * pyval)) (error : list pyval)
        (code : Z) (message : pyval) :
  w_post w (trace st) url (json_request method param)
    = Return (Json (PDict kvs)) ->
  assoc (str "error") kvs = Some (PList error) ->
  index error 0 = Some (PInt code) ->
  index error (-1) = Some message ->
  exists e,
    do w url method param st =
    (Raise e, did st [EvPost url (json_request method param)]) /\
    (code = 1%Z -> e = Exc NotAvailableError message) /\
    (code = 3%Z ->
     forall text, message = PStr text ->
     e = Exc IllegalArgumentError (PStr (text ++ str ": " ++ format w param))) /\
    (code = 12%Z ->
     forall text, message = PStr text ->
     e = Exc InvalidActionError (PStr (str "Invalid action: " ++ text))) /\
    (code = 403%Z -> e = Exc ForbiddenError message) /\
    (code = 500%Z -> e = Exc OperationFailedError message) /\
    (code = 40403%Z -> e = Exc LongShootingError message) /\
    (~ In code [1; 3; 12; 403; 500; 40403]%Z ->
     exists digits,
       read_int digits = Some code /\
       e = Exc ValueError
             (PStr (str "Error " ++ digits ++ str ": " ++ format w message)) /\
       (forall text, message = PStr text -> format w message = text) /\
       (forall z, message = PInt z -> read_int (format w message) = Some z)).
Proof.
  intros Hpost Herr Hcode Hmsg.
  rewrite do_run, Hpost. cbn [json_loads].
  rewrite (normalize_error w param kvs Herr Hcode Hmsg).
  cbn [eq_int].
  destruct (Z.eqb_spec code 1);
    [|destruct (Z.eqb_spec code 3);
      [|destruct (Z.eqb_spec code 12);
        [|destruct (Z.eqb_spec code 403);
          [|destruct (Z.eqb_spec code 500);
            [|destruct (Z.eqb_spec code 40403)]]]]].
  - eexists. split; [reflexivity|].
    repeat split; intros H; try reflexivity; try lia.
    exfalso. apply H. simpl. lia.
  - destruct (add_str message (str ": " ++ format w param)) as [m|e0] eqn:Hadd;
      eexists; (split; [reflexivity|]);
      repeat split; intros H; try lia;
      try (exfalso; apply H; simpl; lia).
    + intros text ->. cbn [add_str] in Hadd. now injection Hadd as <-.
    + intros text ->. discriminate Hadd.
  - destruct (radd_str (str "Invalid action: ") message) as [m|e0] eqn:Hadd;
      eexists; (split; [reflexivity|]);
      repeat split; intros H; try lia;
      try (exfalso; apply H; simpl; lia).
    + intros text ->. cbn [radd_str] in Hadd. now injection Hadd as <-.
    + intros text ->. discriminate Hadd.
  - eexists. split; [reflexivity|].
    repeat split; intros H; try reflexivity; try lia.
    exfalso. apply H. simpl. lia.
  - eexists. split; [reflexivity|].
    repeat split; intros H; try reflexivity; try lia.
    exfalso. apply H. simpl. lia.
  - eexists. split; [reflexivity|].
    repeat split; intros H; try reflexivity; try lia.
    exfalso. apply H. simpl. lia.
  - eexists. split; [reflexivity|].
    split; [lia|]. split; [lia|]. split; [lia|].
    split; [lia|]. split; [lia|]. split; [lia|].
    intros _. exists (int_str code).
    split; [apply read_int_str|]. split; [reflexivity|].
    split; [now intros text ->|].
    intros z ->. apply read_int_str.
Qed.

Lemma do_error_kinds_witness :
  (exists e,
     do (answering (rpc_error [PInt 7; PStr (str "boom")])) ENDPOINT
        (str "getEvent") (PList []) (fresh []) =
     (Raise e,
      did (fresh []) [EvPost ENDPOINT (json_request (str "getEvent") (PList []))]) /\
     (7%Z = 1%Z -> e = Exc NotAvailableError (PStr (str "boom"))) /\
     (7%Z = 3%Z ->
      forall text, PStr (str "boom") = PStr text ->
      e = Exc IllegalArgumentError
            (PStr (text ++ str ": " ++
                   format (answering (rpc_error [PInt 7; PStr (str "boom")]))
                          (PList [])))) /\
     (7%Z = 12%Z ->
      forall text, PStr (str "boom") = PStr text ->
      e = Exc InvalidActionError (PStr (str "Invalid action: " ++ text))) /\
     (7%Z = 403%Z -> e = Exc ForbiddenError (PStr (str "boom"))) /\
     (7%Z = 500%Z -> e = Exc OperationFailedError (PStr (str "boom"))) /\
     (7%Z = 40403%Z -> e = Exc LongShootingError (PStr (str "boom"))) /\
     (~ In 7%Z [1; 3; 12; 403; 500; 40403]%Z ->
      exists digits,
        read_int digits = Some 7%Z /\
        e = Exc ValueError
              (PStr (str "Error " ++ digits ++ str ": " ++
                     format (answering (rpc_error [PInt 7; PStr (str "boom")]))
                            (PStr (str "boom")))) /\
        (forall text,
           PStr (str "boom") = PStr text ->
           format (answering (rpc_error [PInt 7; PStr (str "boom")]))
                  (PStr (str "boom")) = text) /\
        (forall z,
           PStr (str "boom") = PInt z ->
           read_int (format (answering (rpc_error [PInt 7; PStr (str "boom")]))
                            (PStr (str "boom"))) = Some z))) /\
  fst (do (answering (rpc_error [PInt 7; PStr (str "boom")])) ENDPOINT
          (str "getEvent") (PList []) (fresh []))
  = Raise (Exc ValueError (PStr (str "Error 7: boom"))) /\
  fst (do sony ENDPOINT (str "nonexistentMethod") (PList []) (fresh []))
  = Raise (Exc InvalidActionError (PStr (str "Invalid action: No Such Method"))).
Proof.
  split; [|split; reflexivity].
  apply (@do_error_kinds (answering (rpc_error [PInt 7; PStr (str "boom")]))
           ENDPOINT (str "getEvent") (PList []) (fresh [])
           [(str "error", PList [PInt 7; PStr (str "boom")]); (str "id", PInt 1)]
           [PInt 7; PStr (str "boom")] 7%Z (PStr (str "boom")));
    reflexivity.
Defined.

(** C2, as stated, fails for a sequence that is not a code followed by a
    message text.  With the code 12 alone, or followed by a number, the
    join of line 143 raises TypeError, not InvalidActionError; the
    empty sequence has no first element and gives IndexError; and a
    first element that is the boolean true equals 1 and gives
    NotAvailableError. *)
Lemma error_sequence_as_typed :
  fst (do (answering (rpc_error [PInt 12])) ENDPOINT (str "nonexistentMethod")
          (PList []) (fresh []))
    = Raise (Lib TypeError) /\
  fst (do (answering (rpc_error [PInt 12; PInt 404])) ENDPOINT
          (str "nonexistentMethod") (PList []) (fresh []))
    = Raise (Lib TypeError) /\
  fst (do (answering (rpc_error [])) ENDPOINT (str "nonexistentMethod")
          (PList []) (fresh []))
    = Raise (Lib IndexError) /\
  fst (do (answering (rpc_error [PBool true; PStr (str "busy")])) ENDPOINT
          (str "nonexistentMethod") (PList []) (fresh []))
    = Raise (Exc NotAvailableError (PStr (str "busy"))) /\
  ~ error_code_decides.
Proof.
  repeat split.
  intros claim.
  destruct (claim (answering (rpc_error [PInt 12])) ENDPOINT
                  (str "nonexistentMethod") (PList []) (fresh [])
                  _ [PInt 12] (PInt 12) eq_refl eq_refl eq_refl)
    as (e & He & Hclass).
  injection He as <-. discriminate Hclass.
Qed.

(** C5, as amended.  When the response is an error with code 3 whose
    last element is a string, [do] raises IllegalArgumentError, and its
    message is that string, then ": ", then the text of [param] as the
    caller passed it, so that it contains both.  The text of [param] is
    what [str] prints: a string as it is, an integer in decimal, from
    which it reads back, a float as [repr] prints it, None and a boolean
    by name, and a list or a dict as the [repr] of its elements between
    brackets or braces. *)
Theorem illegal_argument_message
        (w : World) (url method : pystr) (param : pyval) (st : state)
        (kvs : list (pystr * pyval)) (error : list pyval) (message : pystr) :
  w_post w (trace st) url (json_request method param)
    = Return (Json (PDict kvs)) ->
  assoc (str "error") kvs = Some (PList error) ->
  index error 0 = Some (PInt 3) ->
  index error (-1) = Some (PStr message) ->
  exists m,
    fst (do w url method param st) = Raise (Exc IllegalArgumentError (PStr m)) /\
    m = message ++ str ": " ++ format w param /\
    str_in message m = true /\
    str_in (format w param) m = true /\
    (forall s, param = PStr s -> format w param = s) /\
    (forall z, param = PInt z -> read_int (format w param) = Some z) /\
    (forall f, param = PFloat f -> format w param = w_float_repr w f) /\
    (param = PNone -> format w param = str "None") /\
    (forall b, param = PBool b ->
               format w param = if b then str "True" else str "False") /\
    (forall l, param = PList l ->
       format w param =
       str "[" ++
       join (str ", ")
            (List.map (py_repr (w_isprintable w) (w_float_repr w)) l) ++
       str "]") /\
    (forall items, param = PDict items ->
       format w param =
       str "{" ++
       join (str ", ")
            (List.map (fun kv =>
                         repr_str (w_isprintable w) (fst kv) ++ str ": " ++
                         py_repr (w_isprintable w) (w_float_repr w) (snd kv))
                      items) ++
       str "}").
Proof.
  intros Hpost Herr Hcode Hmsg.
  exists (message ++ str ": " ++ format w param).
  rewrite do_run, Hpost. cbn [json_loads fst].
  rewrite (normalize_error w param kvs Herr Hcode Hmsg).
  split; [reflexivity|]. split; [reflexivity|].
  split; [apply str_in_left|].
  split; [rewrite app_assoc; apply str_in_right|].
  split; [now intros s ->|].
  split; [intros z ->; apply read_int_str|].
  split; [now intros f ->|].
  split; [now intros ->|].
  split; [now intros b ->|].
  split; [now intros l ->|].
  now intros items ->.
Qed.

Lemma illegal_argument_message_witness :
  (exists m,
     fst (do sony ENDPOINT (str "setIsoSpeedRate")
             (PDict [(str "iso", PInt 99999)]) (fresh []))
       = Raise (Exc IllegalArgumentError (PStr m)) /\
     m = str "value" ++ str ": " ++ format sony (PDict [(str "iso", PInt 99999)]) /\
     str_in (str "value") m = true /\
     str_in (format sony (PDict [(str "iso", PInt 99999)])) m = true /\
     (forall s, PDict [(str "iso", PInt 99999)] = PStr s ->
                format sony (PDict [(str "iso", PInt 99999)]) = s) /\
     (forall z, PDict [(str "iso", PInt 99999)] = PInt z ->
                read_int (format sony (PDict [(str "iso", PInt 99999)])) = Some z) /\
     (forall f, PDict [(str "iso", PInt 99999)] = PFloat f ->
                format sony (PDict [(str "iso", PInt 99999)]) = w_float_repr sony f) /\
     (PDict [(str "iso", PInt 99999)] = PNone ->
      format sony (PDict [(str "iso", PInt 99999)]) = str "None") /\
     (forall b, PDict [(str "iso", PInt 99999)] = PBool b ->
                format sony (PDict [(str "iso", PInt 99999)])
                = if b then str "True" else str "False") /\
     (forall l, PDict [(str "iso", PInt 99999)] = PList l ->
        format sony (PDict [(str "iso", PInt 99999)]) =
        str "[" ++
        join (str ", ")
             (List.map (py_repr (w_isprintable sony) (w_float_repr sony)) l) ++
        str "]") /\
     (forall items, PDict [(str "iso", PInt 99999)] = PDict items ->
        format sony (PDict [(str "iso", PInt 99999)]) =
        str "{" ++
        join (str ", ")
             (List.map (fun kv =>
                          repr_str (w_isprintable sony) (fst kv) ++ str ": " ++
                          py_repr (w_isprintable sony) (w_float_repr sony) (snd kv))
                       items) ++
        str "}")) /\
  fst (do sony ENDPOINT (str "setIsoSpeedRate")
          (PDict [(str "iso", PInt 99999)]) (fresh []))
  = Raise (Exc IllegalArgumentError (PStr (str "value: {'iso': 99999}"))) /\
  fst (do sony ENDPOINT (str "setIsoSpeedRate") (PInt 99999) (fresh []))
  = Raise (Exc IllegalArgumentError (PStr (str "value: 99999"))).
Proof.
  split; [|split; reflexivity].
  apply (@illegal_argument_message sony ENDPOINT (str "setIsoSpeedRate")
           (PDict [(str "iso", PInt 99999)]) (fresh [])
           [(str "error", PList [PInt 3; PStr (str "bad"); PStr (str "value")]);
            (str "id", PInt 1)]
           [PInt 3; PStr (str "bad"); PStr (str "value")] (str "value"));
    reflexivity.
Defined.

(** C5, as stated, fails when the last element of an error with code 3
    is not a string: the join of line 140 raises TypeError, and no
    IllegalArgumentError is raised at all. *)
Lemma illegal_argument_needs_text :
  fst (do (answering (rpc_error [PInt 3; PInt 404])) ENDPOINT
          (str "setIsoSpeedRate") (PInt 99999) (fresh []))
    = Raise (Lib TypeError) /\
  fst (do (answering (rpc_error [PInt 3])) ENDPOINT
          (str "setIsoSpeedRate") (PInt 99999) (fresh []))
    = Raise (Lib TypeError) /\
  ~ illegal_argument_raised.
Proof.
  repeat split.
  intros claim.
  destruct (claim (answering (rpc_error [PInt 3; PInt 404])) ENDPOINT
                  (str "setIsoSpeedRate") (PInt 99999) (fresh [])
                  _ [PInt 3; PInt 404] (PInt 404) eq_refl eq_refl eq_refl eq_refl)
    as (m & Hm & _).
  discriminate Hm.
Qed.

(** The example of the specification: [{"error": [3, "bad", "value"]}]
    for the params [{"iso": 99999}]. *)
Example illegal_argument_example :
  fst (do sony ENDPOINT (str "setIsoSpeedRate")
          (PDict [(str "iso", PInt 99999)]) (fresh []))
  = Raise (Exc IllegalArgumentError (PStr (str "value: {'iso': 99999}"))).
Proof. reflexivity. Qed.

(** C6.  [_post_request] makes one POST to the control endpoint, and
    its body is the object with the four members method, params, id 1
    and version "1.0"; params is [param] itself when that is a list, and
    the one-element list [[param]] otherwise.  The reply is parsed as
    JSON and returned. *)
Theorem post_request_envelope
        (w : World) (url method : pystr) (param : pyval) (st : state) :
  exists params,
    let body := PDict [(str "method", PStr method);
                       (str "params", params);
                       (str "id", PInt 1);
                       (str "version", PStr (str "1.0"))] in
    _post_request w url method param st =
    (match w_post w (trace st) url body with
     | Return c => json_loads c
     | Raise e => Raise e
     end,
     did st [EvPost url body]) /\
    (forall l, param = PList l -> params = param) /\
    ((forall l, param <> PList l) -> params = PList [param]).
Proof.
  exists (match param with PList _ => param | _ => PList [param] end).
  cbv zeta. split; [|split].
  - unfold _post_request. run_monad.
    fold (json_request method param).
    destruct (w_post w (trace st) url (json_request method param)) as [c|e];
      [|reflexivity].
    destruct (json_loads c); reflexivity.
  - intros l ->. reflexivity.
  - intros Hnot. destruct param; try reflexivity.
    now destruct (Hnot l).
Qed.

(** A scalar and a list on the wire. *)
Example post_request_examples :
  trace (snd (_post_request sony ENDPOINT (str "setIsoSpeedRate")
                            (PStr (str "400")) (fresh [])))
  = [EvPost ENDPOINT
       (PDict [(str "method", PStr (str "setIsoSpeedRate"));
               (str "params", PList [PStr (str "400")]);
               (str "id", PInt 1);
               (str "version", PStr (str "1.0"))])]
  /\
  trace (snd (_post_request sony ENDPOINT (str "setShootMode")
                            (PList [PStr (str "still")]) (fresh [])))
  = [EvPost ENDPOINT
       (PDict [(str "method", PStr (str "setShootMode"));
               (str "params", PList [PStr (str "still")]);
               (str "id", PInt 1);
               (str "version", PStr (str "1.0"))])].
Proof. split; reflexivity. Qed.

(* ===================================================================== *)
(** ** Discovery                                                          *)
(* ===================================================================== *)

Lemma scan_lines_none (lines : list pystr) :
  no_location lines -> scan_lines lines = None.
Proof.
  induction 1 as [|line lines Hline _ IH]; simpl; [reflexivity|].
  now rewrite Hline.
Qed.

(** The scan stops at the first line that has the word; the lines after
    it play no part. *)
Lemma scan_lines_first (before after : list pystr) (item : pystr) :
  no_location before ->
  str_in (str "LOCATION") item = true ->
  scan_lines (before ++ item :: after) =
  Some (match index (split_on SP (strip item)) 1 with
        | Some url => Return url
        | None => Raise (Lib IndexError)
        end).
Proof.
  intros Hbefore Hitem.
  induction Hbefore as [|line lines Hline _ IH]; simpl.
  - now rewrite Hitem.
  - now rewrite Hline.
Qed.

(** The usual header: after "LOCATION: " a URL without whitespace, and
    then either nothing but whitespace or a blank and more text.  The
    piece at index 1 is the URL. *)
Lemma location_line (url tail : pystr) :
  url <> [] ->
  Forall (fun c => is_space c = false) url ->
  Forall (fun c => is_space c = true) tail \/ (exists extra, tail = SP :: extra) ->
  let item := str "LOCATION: " ++ url ++ tail in
  str_in (str "LOCATION") item = true /\
  index (split_on SP (strip item)) 1 = Some url.
Proof.
  intros Hne Hurl Htail item. split.
  { apply str_in_prefix. unfold item.
    change (str "LOCATION: ") with (str "LOCATION" ++ str ": ").
    rewrite <- app_assoc. apply prefix_of_app. }
  assert (Hhead : strip item = rstrip item) by reflexivity.
  assert (Hends : rstrip (str "LOCATION: " ++ url) = str "LOCATION: " ++ url).
  { destruct (exists_last Hne) as (u & c & ->).
    apply Forall_app in Hurl as [_ Hc]. inversion Hc as [|? ? Hc' _]; subst.
    rewrite app_assoc. now apply rstrip_last. }
  assert (Hplain : split_on SP (str "LOCATION: " ++ url) = [str "LOCATION:"; url]).
  { change (str "LOCATION: ") with (str "LOCATION:" ++ [SP]).
    rewrite <- app_assoc. cbn [app]. rewrite split_on_app by (repeat constructor).
    now rewrite split_on_plain by now apply not_blank_not_SP. }
  rewrite Hhead. unfold item.
  destruct Htail as [Hblank|[extra ->]].
  - rewrite app_assoc, rstrip_app_blank by now apply rstrip_blank.
    rewrite Hends, Hplain. reflexivity.
  - destruct (rstrip extra) as [|c t] eqn:Hextra.
    + rewrite app_assoc, rstrip_app_blank.
      * rewrite Hends, Hplain. reflexivity.
      * change (SP :: extra) with ([SP] ++ extra).
        now rewrite rstrip_app_blank.
    + change (SP :: extra) with ([SP] ++ extra).
      rewrite !app_assoc, rstrip_app by (rewrite Hextra; discriminate).
      rewrite Hextra, <- !app_assoc.
      change (str "LOCATION: ") with (str "LOCATION:" ++ [SP]).
      rewrite <- app_assoc. cbn [app].
      rewrite split_on_app by (repeat constructor).
      rewrite split_on_app by now apply not_blank_not_SP.
      apply index_second.
Qed.

Lemma scan_lines_usual_header (before after : list pystr) (url tail : pystr) :
  no_location before ->
  url <> [] ->
  Forall (fun c => is_space c = false) url ->
  Forall (fun c => is_space c = true) tail \/ (exists extra, tail = SP :: extra) ->
  scan_lines (before ++ (str "LOCATION: " ++ url ++ tail) :: after)
  = Some (Return url).
Proof.
  intros Hbefore Hne Hurl Htail.
  destruct (location_line Hne Hurl Htail) as [Hin Hindex].
  cbv zeta in Hin, Hindex.
  pose proof (@scan_lines_first before after _ Hbefore Hin) as Hscan.
  rewrite Hindex in Hscan. exact Hscan.
Qed.

(** Datagrams without the word are received and dropped. *)
Lemma receive_skip (ignored : list pystr) (rest : list datagram)
      (done : list event) :
  Forall (fun d => no_location (split_on LF d)) ignored ->
  receive (List.map Utf8 ignored ++ rest) done =
  receive rest (done ++ repeat RECV (List.length ignored)).
Proof.
  intros H. revert done.
  induction H as [|d ignored Hd _ IH]; intros done.
  - simpl. now rewrite app_nil_r.
  - cbn [List.map app receive]. rewrite (scan_lines_none Hd).
    rewrite IH, <- app_assoc. reflexivity.
Qed.

Lemma setup_trace (tr : list event) (w : World) (network_interface : option pystr) :
  tr ++ setup_events w network_interface =
  match network_interface with
  | Some iface =>
      (((tr ++ [EvSocket]) ++ [EvSetSockOpt (bind_option w) iface]) ++
       [EvSetTimeout 2000]) ++ [EvSendTo M_SEARCH (str "239.255.255.250") 1900]
  | None =>
      (((tr ++ [EvSocket]) ++ []) ++
       [EvSetTimeout 2000]) ++ [EvSendTo M_SEARCH (str "239.255.255.250") 1900]
  end.
Proof.
  unfold setup_events.
  destruct network_interface; repeat rewrite <- app_assoc; reflexivity.
Qed.

(** When the socket is set up and the query sent, [discover] is the
    receive loop, with a timeout turned into ConnectionError. *)
Lemma discover_run (w : World) (network_interface : option pystr) (st : state) :
  setup_failure w network_interface = None ->
  discover w network_interface st =
  match receive (inbox st) (trace st ++ setup_events w network_interface) with
  | (Return url, st') => (Return url, st')
  | (Raise e, st') =>
      if is_socket_timeout e then (Raise NOT_CONNECTED, st') else (Raise e, st')
  end.
Proof.
  intros Hsetup. rewrite setup_trace.
  unfold setup_failure in Hsetup.
  unfold discover. run_monad. fold (bind_option w).
  destruct (w_socket w); [discriminate|].
  destruct network_interface as [iface|]; cbn [trace inbox].
  - destruct (w_setsockopt w (bind_option w) iface); [discriminate|].
    cbn [trace inbox]. rewrite Hsetup. cbn [trace inbox]. reflexivity.
  - rewrite Hsetup. cbn [trace inbox]. rewrite app_nil_r. reflexivity.
Qed.

(** When the set-up fails, that failure is what [discover] raises. *)
Lemma discover_setup_failure (w : World) (network_interface : option pystr)
      (st : state) (e : exn) :
  setup_failure w network_interface = Some e ->
  fst (discover w network_interface st) = Raise e.
Proof.
  unfold setup_failure, discover. run_monad. fold (bind_option w).
  destruct (w_socket w); [intros [= ->]; reflexivity|].
  destruct network_interface as [iface|]; cbn [trace inbox].
  - destruct (w_setsockopt w (bind_option w) iface);
      [intros [= ->]; reflexivity|].
    intros ->. reflexivity.
  - intros ->. reflexivity.
Qed.

(** C4.  When no datagram arrives, the one [recvfrom], made with the
    timeout of two seconds after the one [sendto], times out, and
    [discover] raises ConnectionError: no value is returned and the
    query is not sent again. *)
Theorem discover_timeout
        (w : World) (network_interface : option pystr) (st : state) :
  setup_failure w network_interface = None ->
  inbox st = [] ->
  discover w network_interface st =
  (Raise (Exc ConnectionError
              (PStr (str "You are not connected to the camera's wifi."))),
   {| trace :=
        trace st ++ [EvSocket] ++
        match network_interface with
        | Some iface => [EvSetSockOpt (bind_option w) iface]
        | None => []
        end ++
        [EvSetTimeout 2000;
         EvSendTo M_SEARCH (str "239.255.255.250") 1900;
         EvRecvFrom 65507];
      inbox := [] |}).
Proof.
  intros Hsetup Hinbox.
  rewrite (discover_run _ _ _ Hsetup), Hinbox. cbn [receive is_socket_timeout class_of].
  unfold NOT_CONNECTED, setup_events.
  repeat rewrite <- app_assoc. reflexivity.
Qed.

Lemma discover_timeout_witness :
  discover sony (Some (str "wlan0")) (fresh []) =
  (Raise (Exc ConnectionError
              (PStr (str "You are not connected to the camera's wifi."))),
   {| trace :=
        trace (fresh []) ++ [EvSocket] ++
        [EvSetSockOpt (bind_option sony) (str "wlan0")] ++
        [EvSetTimeout 2000;
         EvSendTo M_SEARCH (str "239.255.255.250") 1900;
         EvRecvFrom 65507];
      inbox := [] |}).
Proof.
  apply (@discover_timeout sony (Some (str "wlan0")) (fresh []));
    reflexivity.
Defined.

(** The same end is reached when datagrams arrive but none has the
    word: each is received and dropped, and the next wait times out. *)
Lemma discover_nothing_found
      (w : World) (network_interface : option pystr) (st : state)
      (ignored : list pystr) :
  setup_failure w network_interface = None ->
  inbox st = List.map Utf8 ignored ->
  Forall (fun d => no_location (split_on LF d)) ignored ->
  discover w network_interface st =
  (Raise NOT_CONNECTED,
   {| trace := trace st ++ setup_events w network_interface ++
               repeat RECV (S (List.length ignored));
      inbox := [] |}).
Proof.
  intros Hsetup Hinbox Hignored.
  rewrite (discover_run _ _ _ Hsetup), Hinbox.
  rewrite <- (app_nil_r (List.map Utf8 ignored)).
  rewrite (receive_skip _ _ Hignored). cbn [receive is_socket_timeout class_of].
  rewrite <- !app_assoc. fold RECV. rewrite <- repeat_cons. reflexivity.
Qed.

(** The first datagram with the word in one of its lines ends the
    loop, by a value or by IndexError; the datagrams before it are
    dropped, those after it stay unread. *)
Lemma discover_first_match
      (w : World) (network_interface : option pystr) (st : state)
      (ignored : list pystr) (decoded : pystr) (rest : list datagram)
      (before after : list pystr) (item : pystr) :
  setup_failure w network_interface = None ->
  inbox st = List.map Utf8 ignored ++ Utf8 decoded :: rest ->
  Forall (fun d => no_location (split_on LF d)) ignored ->
  split_on LF decoded = before ++ item :: after ->
  no_location before ->
  str_in (str "LOCATION") item = true ->
  discover w network_interface st =
  (match index (split_on SP (strip item)) 1 with
   | Some url => Return url
   | None => Raise (Lib IndexError)
   end,
   {| trace := trace st ++ setup_events w network_interface ++
               repeat RECV (S (List.length ignored));
      inbox := rest |}).
Proof.
  intros Hsetup Hinbox Hignored Hlines Hbefore Hitem.
  rewrite (discover_run _ _ _ Hsetup), Hinbox.
  rewrite (receive_skip _ _ Hignored). cbn [receive].
  rewrite Hlines, (@scan_lines_first before after item Hbefore Hitem).
  rewrite <- !app_assoc. fold RECV. rewrite <- repeat_cons.
  destruct (index (split_on SP (strip item)) 1); reflexivity.
Qed.

(** X23.  What the loop of lines 56-62 does: [discover] takes the first
    datagram that has a line with the word LOCATION anywhere in it, the
    lines being the pieces between line feeds; of the first such line,
    stripped of surrounding whitespace and cut at every single blank, it
    returns the piece at index 1.  The lines after that line and the
    datagrams after that datagram are not looked at: they have no part
    in the result, and the datagrams stay unread. *)
Theorem discover_location
        (w : World) (network_interface : option pystr) (st : state)
        (ignored : list pystr) (decoded : pystr) (rest : list datagram)
        (before after : list pystr) (item url : pystr) :
  setup_failure w network_interface = None ->
  inbox st = List.map Utf8 ignored ++ Utf8 decoded :: rest ->
  Forall (fun d => no_location (split_on LF d)) ignored ->
  split_on LF decoded = before ++ item :: after ->
  no_location before ->
  str_in (str "LOCATION") item = true ->
  index (split_on SP (strip item)) 1 = Some url ->
  discover w network_interface st =
  (Return url,
   {| trace := trace st ++ setup_events w network_interface ++
               repeat (EvRecvFrom 65507) (S (List.length ignored));
      inbox := rest |}).
Proof.
  intros Hsetup Hinbox Hignored Hlines Hbefore Hitem Hurl.
  rewrite (@discover_first_match w network_interface st ignored decoded rest
             before after item Hsetup Hinbox Hignored Hlines Hbefore Hitem).
  now rewrite Hurl.
Qed.

Lemma discover_location_witness :
  discover sony None (fresh [Utf8 NOTIFY; Utf8 SSDP_REPLY; Utf8 WORD_INSIDE]) =
  (Return DD_XML,
   {| trace := trace (fresh [Utf8 NOTIFY; Utf8 SSDP_REPLY; Utf8 WORD_INSIDE]) ++
               setup_events sony None ++ repeat (EvRecvFrom 65507) 2;
      inbox := [Utf8 WORD_INSIDE] |}).
Proof.
  apply (@discover_location sony None
           (fresh [Utf8 NOTIFY; Utf8 SSDP_REPLY; Utf8 WORD_INSIDE])
           [NOTIFY] SSDP_REPLY [Utf8 WORD_INSIDE]
           [str "HTTP/1.1 200 OK" ++ [CR];
            str "CACHE-CONTROL: max-age=1800" ++ [CR];
            str "EXT: " ++ [CR]]
           [str "SERVER: UPnP/1.0 SonyImagingDevice/1.0" ++ [CR];
            str "ST: urn:schemas-sony-com:service:ScalarWebAPI:1" ++ [CR];
            [CR]; []]
           (str "LOCATION: http://192.168.122.1:64321/dd.xml" ++ [CR])
           DD_XML);
    try reflexivity; repeat constructor.
Defined.

(** C3.  The code does not return the URL of three replies that carry
    it, though the docstring of [discover] promises the XML URL of the
    camera and no exception but ConnectionError.  A line that has the
    word without starting with it is taken when it comes first; two
    blanks after the colon give the empty string; a tab after the colon
    gives IndexError.  In each reply the header line that starts with
    LOCATION has the URL as its second whitespace-delimited token. *)
Lemma location_header_not_returned :
  (location_header WORD_INSIDE = Some DD_XML /\
   fst (discover sony None (fresh [Utf8 WORD_INSIDE])) = Return (str "rear")) /\
  (location_header TWO_BLANKS = Some DD_XML /\
   fst (discover sony None (fresh [Utf8 TWO_BLANKS])) = Return []) /\
  (location_header TABBED = Some DD_XML /\
   fst (discover sony None (fresh [Utf8 TABBED])) = Raise (Lib IndexError)) /\
  ~ location_header_returned.
Proof.
  repeat split; try reflexivity.
  intros claim.
  specialize (claim sony None (fresh [Utf8 WORD_INSIDE]) WORD_INSIDE [] DD_XML
                    eq_refl eq_refl eq_refl).
  discriminate claim.
Qed.

(** For a reply in the usual form the two readings agree. *)
Example discover_usual_reply :
  location_header SSDP_REPLY = Some DD_XML /\
  fst (discover sony None (fresh [Utf8 SSDP_REPLY])) = Return DD_XML.
Proof. split; reflexivity. Qed.

(* ===================================================================== *)
(** ** The connectivity probe                                             *)
(* ===================================================================== *)

(** C8, as amended.  [connected] makes one GET to the control endpoint
    with a timeout of 0.2 s.  A reply, whatever it is, gives True; an
    exception that is a [requests.exceptions.ConnectionError] gives
    False; any other exception reaches the caller. *)
Theorem connected_outcomes (w : World) (self : Camera) (st : state) :
  connected w self st =
  (match w_get w (trace st) (camera_endpoint_url self) (Some 200%Z) with
   | Return _ => Return true
   | Raise e => if is_requests_ConnectionError e then Return false else Raise e
   end,
   did st [EvGet (camera_endpoint_url self) (Some 200%Z)]).
Proof.
  unfold connected. run_monad.
  destruct (w_get w (trace st) (camera_endpoint_url self) (Some 200%Z)) as [c|e];
    [reflexivity|].
  destruct (is_requests_ConnectionError e); reflexivity.
Qed.

(** C8, as stated, fails: when the camera accepts the connection and
    does not answer within the 0.2 s, [requests.get] raises ReadTimeout,
    which the [except] clause does not catch. *)
Lemma connected_read_timeout_raises :
  fst (connected stalled CAM1 (fresh [])) = Raise (Lib requests_ReadTimeout) /\
  ~ connected_never_raises.
Proof.
  split; [reflexivity|].
  intros claim. destruct (claim stalled CAM1 (fresh [])) as [b Hb].
  discriminate Hb.
Qed.

(** Refused and unreachable connections, by contrast, give False. *)
Example connected_refused (w : World) (self : Camera) (st : state) :
  w_get w (trace st) (camera_endpoint_url self) (Some 200%Z)
    = Raise (Lib requests_ConnectionError) ->
  fst (connected w self st) = Return false.
Proof.
  intros H. unfold connected. run_monad. now rewrite H.
Qed.

(* ===================================================================== *)
(** ** Construction                                                       *)
(* ===================================================================== *)

(** [__init__], step by step: each step starts in the state the
    previous one left, and the first exception ends the run. *)
Lemma init_run (w : World) (network_interface : option pystr) (st : state) :
  __init__ w network_interface st =
  match discover w network_interface st with
  | (Raise e, s1) => (Raise e, s1)
  | (Return url, s1) =>
  match connect w url s1 with
  | (Raise e, s2) => (Raise e, s2)
  | (Return descr, s2) =>
  match endpoint_of (snd descr) with
  | Raise e => (Raise e, s2)
  | Return endpoint =>
  match do w endpoint GET_API_LIST (PList []) s2 with
  | (Raise e, s3) => (Raise e, s3)
  | (Return apis, s3) =>
  match py_in START_REC_MODE apis with
  | Raise e => (Raise e, s3)
  | Return false =>
      (Return (built network_interface url descr endpoint apis), s3)
  | Return true =>
  match do w endpoint START_REC_MODE (PList []) s3 with
  | (Raise e, s4) => (Raise e, s4)
  | (Return _, s4) =>
      (Return (built network_interface url descr endpoint apis), s4)
  end end end end end end.
Proof.
  unfold __init__, built, GET_API_LIST, START_REC_MODE. run_monad.
  destruct (discover w network_interface st) as [[url|e] s1]; [|reflexivity].
  destruct (connect w url s1) as [[[[n v] svcs]|e] s2]; [|reflexivity].
  cbn [fst snd].
  destruct (endpoint_of svcs) as [endpoint|e]; [|reflexivity].
  destruct (do w endpoint (str "getAvailableApiList") (PList []) s2)
    as [[apis|e] s3]; [|reflexivity].
  destruct (py_in (str "startRecMode") apis) as [[|]|e]; try reflexivity.
  destruct (do w endpoint (str "startRecMode") (PList []) s3)
    as [[r|e] s4]; reflexivity.
Qed.

(** [connect] makes one GET, of the descriptor, whatever comes of it. *)
Lemma connect_trace (w : World) (url : pystr) (st : state) :
  snd (connect w url st) = did st [EvGet url None].
Proof.
  unfold connect. run_monad.
  destruct (w_get w (trace st) url None) as [c|e]; [|reflexivity].
  destruct (xml_fromstring c) as [xml|e]; [|reflexivity].
  destruct (text_of (find FRIENDLY_NAME xml)); [|reflexivity].
  destruct (text_of (find API_VERSION xml)); [|reflexivity].
  destruct (find SERVICE_LIST xml) as [l|]; [|reflexivity].
  destruct (collect_services (children l) []); reflexivity.
Qed.

Lemma do_trace (w : World) (url method : pystr) (param : pyval) (st : state) :
  snd (do w url method param st) = did st [EvPost url (json_request method param)].
Proof. now rewrite do_run. Qed.

Lemma receive_trace (arrivals : list datagram) (done : list event) :
  exists n, trace (snd (receive arrivals done)) = done ++ repeat RECV n.
Proof.
  revert done. induction arrivals as [|d arrivals IH]; intros done.
  - now exists 1.
  - cbn [receive]. destruct d as [decoded|].
    + destruct (scan_lines (split_on LF decoded)).
      * now exists 1.
      * destruct (IH (done ++ [EvRecvFrom 65507])) as [n Hn].
        exists (S n). rewrite Hn, <- app_assoc. reflexivity.
    + now exists 1.
Qed.

Lemma socket_events_repeat (n : nat) :
  forallb is_socket_event (repeat RECV n) = true.
Proof. induction n; simpl; auto. Qed.

(** [discover] touches the socket only. *)
Lemma discover_trace (w : World) (network_interface : option pystr) (st : state) :
  exists evs,
    trace (snd (discover w network_interface st)) = trace st ++ evs /\
    forallb is_socket_event evs = true.
Proof.
  destruct (setup_failure w network_interface) as [e|] eqn:Hsetup.
  - unfold setup_failure in Hsetup.
    unfold discover. run_monad. fold (bind_option w).
    destruct (w_socket w).
    { exists [EvSocket]. split; reflexivity. }
    destruct network_interface as [iface|]; cbn [trace inbox snd].
    + destruct (w_setsockopt w (bind_option w) iface).
      { exists [EvSocket; EvSetSockOpt (bind_option w) iface].
        rewrite <- app_assoc. split; reflexivity. }
      rewrite Hsetup.
      exists [EvSocket; EvSetSockOpt (bind_option w) iface; EvSetTimeout 2000;
              EvSendTo M_SEARCH (str "239.255.255.250") 1900].
      cbn [trace inbox snd]. rewrite <- !app_assoc. split; reflexivity.
    + rewrite Hsetup.
      exists [EvSocket; EvSetTimeout 2000;
              EvSendTo M_SEARCH (str "239.255.255.250") 1900].
      cbn [trace inbox snd]. rewrite <- !app_assoc. split; reflexivity.
  - rewrite (discover_run _ _ _ Hsetup).
    destruct (receive_trace (inbox st) (trace st ++ setup_events w network_interface))
      as [n Hn].
    exists (setup_events w network_interface ++ repeat RECV n). split.
    + rewrite app_assoc, <- Hn.
      destruct (receive (inbox st) (trace st ++ setup_events w network_interface))
        as [[url|e] st']; [reflexivity|].
      destruct (is_socket_timeout e); reflexivity.
    + rewrite forallb_app, socket_events_repeat.
      destruct network_interface; reflexivity.
Qed.

(** [in] on a list is membership. *)
Lemma py_in_list (s : pystr) (l : list pyval) :
  exists b, py_in s (PList l) = Return b /\ (b = true <-> In (PStr s) l).
Proof.
  exists (existsb (fun x => eq_str x s) l). split; [reflexivity|].
  rewrite existsb_exists. split.
  - intros (x & Hin & Heq). destruct x; try discriminate.
    apply pystr_eqb_eq in Heq. now subst.
  - intros Hin. exists (PStr s). split; [assumption|]. apply pystr_eqb_refl.
Qed.

(** What a successful construction went through. *)
Lemma init_success (w : World) (network_interface : option pystr)
      (st st' : state) (cam : Camera) :
  __init__ w network_interface st = (Return cam, st') ->
  exists s1 s2 s3 (start : bool),
    discover w network_interface st = (Return (xml_url cam), s1) /\
    connect w (xml_url cam) s1
      = (Return (name cam, api_version cam, services cam), s2) /\
    endpoint_of (services cam) = Return (camera_endpoint_url cam) /\
    do w (camera_endpoint_url cam) GET_API_LIST (PList []) s2
      = (Return (available_apis cam), s3) /\
    py_in START_REC_MODE (available_apis cam) = Return start /\
    (if start
     then exists r,
            do w (camera_endpoint_url cam) START_REC_MODE (PList []) s3
              = (Return r, st')
     else st' = s3) /\
    _network_interface cam = network_interface.
Proof.
  rewrite init_run.
  destruct (discover w network_interface st) as [[url|e] s1]; [|discriminate].
  destruct (connect w url s1) as [[[[n v] svcs]|e] s2] eqn:Hconnect;
    [|discriminate].
  cbn [fst snd].
  destruct (endpoint_of svcs) as [endpoint|e] eqn:Hendpoint; [|discriminate].
  destruct (do w endpoint GET_API_LIST (PList []) s2)
    as [[apis|e] s3] eqn:Hapis; [|discriminate].
  destruct (py_in START_REC_MODE apis) as [[|]|e] eqn:Hin; [| |discriminate].
  - destruct (do w endpoint START_REC_MODE (PList []) s3)
      as [[r|e] s4] eqn:Hstart; [|discriminate].
    intros [= <- <-]. cbn.
    exists s1, s2, s3, true. repeat split; try assumption.
    now exists r.
  - intros [= <- <-]. cbn.
    exists s1, s2, s3, false. repeat split; assumption.
Qed.

(** The descriptor of the specification: one service, "camera". *)
Example connect_example :
  fst (connect (bench (Xml (descriptor [service_entry "camera" "http://cam/camera"]))
                      camera_answer)
               DD_XML (fresh []))
  = Return (Some (str "Cam1"), Some (str "2.0"),
            [(Some (str "camera"), Some (str "http://cam/camera"))]).
Proof. reflexivity. Qed.

(** A descriptor without the service list is of no use. *)
Example connect_without_service_list :
  fst (connect (bench (Xml (Element (upnp "root") None
                              [Element (upnp "device") None
                                 [Element (upnp "friendlyName") (Some (str "Cam1")) []]]))
                      camera_answer)
               DD_XML (fresh []))
  = Raise (Lib AttributeError).
Proof. reflexivity. Qed.

(** [info] lists the service types in the order of the descriptor. *)
Example info_example :
  getitem_key (info CAM1) (str "supported services")
  = Return (PList [PStr (str "guide"); PStr (str "camera")]).
Proof. reflexivity. Qed.

(** C7.  After a successful construction the control endpoint is the
    URL bound to "camera" in the services mapping that [connect]
    extracted from the descriptor, followed by "/camera"; and when that
    mapping has no "camera" key, construction fails, with KeyError. *)
Theorem endpoint_invariant
        (w : World) (network_interface : option pystr) (st : state) :
  (forall cam st',
     __init__ w network_interface st = (Return cam, st') ->
     exists s1 s2 url,
       discover w network_interface st = (Return (xml_url cam), s1) /\
       connect w (xml_url cam) s1
         = (Return (name cam, api_version cam, services cam), s2) /\
       dict_lookup (services cam) (Some (str "camera")) = Some (Some url) /\
       camera_endpoint_url cam = url ++ str "/camera") /\
  (forall url s1 descr s2,
     discover w network_interface st = (Return url, s1) ->
     connect w url s1 = (Return descr, s2) ->
     dict_lookup (snd descr) (Some (str "camera")) = None ->
     __init__ w network_interface st = (Raise (Lib KeyError), s2)).
Proof.
  split.
  - intros cam st' Hinit.
    destruct (init_success _ _ _ Hinit)
      as (s1 & s2 & s3 & start & Hd & Hc & He & _).
    unfold endpoint_of in He.
    destruct (dict_lookup (services cam) (Some (str "camera")))
      as [[url|]|]; try discriminate.
    injection He as He. exists s1, s2, url. now repeat split.
  - intros url s1 descr s2 Hd Hc Hmissing.
    rewrite init_run, Hd, Hc. unfold endpoint_of. now rewrite Hmissing.
Qed.

Lemma endpoint_invariant_witness :
  (exists s1 s2 url,
     discover sony None (fresh [Utf8 SSDP_REPLY]) = (Return (xml_url CAM1), s1) /\
     connect sony (xml_url CAM1) s1
       = (Return (name CAM1, api_version CAM1, services CAM1), s2) /\
     dict_lookup (services CAM1) (Some (str "camera")) = Some (Some url) /\
     camera_endpoint_url CAM1 = url ++ str "/camera") /\
  __init__ guide_only None (fresh [Utf8 SSDP_REPLY]) =
  (Raise (Lib KeyError),
   snd (connect guide_only DD_XML
          (snd (discover guide_only None (fresh [Utf8 SSDP_REPLY]))))).
Proof.
  split.
  - apply (proj1 (endpoint_invariant sony None (fresh [Utf8 SSDP_REPLY]))
                 CAM1 (snd (__init__ sony None (fresh [Utf8 SSDP_REPLY])))).
    reflexivity.
  - apply (proj2 (endpoint_invariant guide_only None (fresh [Utf8 SSDP_REPLY]))
                 DD_XML
                 (snd (discover guide_only None (fresh [Utf8 SSDP_REPLY])))
                 (Some (str "Cam1"), Some (str "2.0"),
                  [(Some (str "guide"), Some (str "http://cam/sony"))])
                 (snd (connect guide_only DD_XML
                         (snd (discover guide_only None (fresh [Utf8 SSDP_REPLY]))))));
      reflexivity.
Defined.

(** C9.  [__init__] runs discovery, then the descriptor fetch on the
    URL found, then derives the control endpoint, then calls
    getAvailableApiList and keeps what it returns as [available_apis],
    then calls startRecMode exactly when "startRecMode" is in that
    value.  An exception in any of these steps, startRecMode included,
    is the outcome of the construction, so that no object is returned;
    and a successful construction has made, in this order, the socket
    calls of discovery, one GET of the descriptor, one POST of
    getAvailableApiList and, when "startRecMode" is listed, one POST of
    startRecMode. *)
Theorem construction_sequence
        (w : World) (network_interface : option pystr) (st : state) :
  let construct := __init__ w network_interface st in
  (forall e s1,
     discover w network_interface st = (Raise e, s1) ->
     construct = (Raise e, s1)) /\
  (forall url s1,
     discover w network_interface st = (Return url, s1) ->
     (forall e s2,
        connect w url s1 = (Raise e, s2) -> construct = (Raise e, s2)) /\
     (forall descr s2,
        connect w url s1 = (Return descr, s2) ->
        (forall e,
           endpoint_of (snd descr) = Raise e -> construct = (Raise e, s2)) /\
        (forall endpoint,
           endpoint_of (snd descr) = Return endpoint ->
           (forall e s3,
              do w endpoint (str "getAvailableApiList") (PList []) s2
                = (Raise e, s3) ->
              construct = (Raise e, s3)) /\
           (forall apis s3,
              do w endpoint (str "getAvailableApiList") (PList []) s2
                = (Return apis, s3) ->
              let cam := built network_interface url descr endpoint apis in
              (forall e,
                 py_in (str "startRecMode") apis = Raise e ->
                 construct = (Raise e, s3)) /\
              (py_in (str "startRecMode") apis = Return false ->
               construct = (Return cam, s3)) /\
              (py_in (str "startRecMode") apis = Return true ->
               (forall e s4,
                  do w endpoint (str "startRecMode") (PList []) s3
                    = (Raise e, s4) ->
                  construct = (Raise e, s4)) /\
               (forall r s4,
                  do w endpoint (str "startRecMode") (PList []) s3
                    = (Return r, s4) ->
                  construct = (Return cam, s4))))))) /\
  (forall cam st',
     construct = (Return cam, st') ->
     exists (socket_calls : list event) (start : bool),
       forallb is_socket_event socket_calls = true /\
       py_in (str "startRecMode") (available_apis cam) = Return start /\
       (forall names,
          available_apis cam = PList names ->
          (start = true <-> In (PStr (str "startRecMode")) names)) /\
       trace st' =
       trace st ++ socket_calls ++
       [EvGet (xml_url cam) None;
        EvPost (camera_endpoint_url cam)
               (json_request (str "getAvailableApiList") (PList []))] ++
       (if start
        then [EvPost (camera_endpoint_url cam)
                     (json_request (str "startRecMode") (PList []))]
        else [])).
Proof.
  cbv zeta. fold GET_API_LIST START_REC_MODE.
  split; [|split].
  - intros e s1 Hd. now rewrite init_run, Hd.
  - intros url s1 Hd. split.
    { intros e s2 Hc. now rewrite init_run, Hd, Hc. }
    intros descr s2 Hc. split.
    { intros e He. now rewrite init_run, Hd, Hc, He. }
    intros endpoint He. split.
    { intros e s3 Ha. now rewrite init_run, Hd, Hc, He, Ha. }
    intros apis s3 Ha. split; [|split].
    { intros e Hin. now rewrite init_run, Hd, Hc, He, Ha, Hin. }
    { intros Hin. now rewrite init_run, Hd, Hc, He, Ha, Hin. }
    intros Hin. split.
    { intros e s4 Hs. now rewrite init_run, Hd, Hc, He, Ha, Hin, Hs. }
    intros r s4 Hs. now rewrite init_run, Hd, Hc, He, Ha, Hin, Hs.
  - intros cam st' Hinit.
    destruct (init_success _ _ _ Hinit)
      as (s1 & s2 & s3 & start & Hd & Hc & He & Ha & Hin & Hs & _).
    destruct (discover_trace w network_interface st) as (evs & Hevs & Hsock).
    rewrite Hd in Hevs. cbn [snd] in Hevs.
    pose proof (connect_trace w (xml_url cam) s1) as Hs2.
    rewrite Hc in Hs2. cbn [snd] in Hs2.
    pose proof (do_trace w (camera_endpoint_url cam) GET_API_LIST (PList []) s2)
      as Hs3.
    rewrite Ha in Hs3. cbn [snd] in Hs3.
    exists evs, start.
    split; [assumption|]. split; [assumption|]. split.
    { intros names Hnames.
      destruct (py_in_list START_REC_MODE names) as (b & Hb & Hiff).
      rewrite Hnames in Hin. rewrite Hin in Hb. injection Hb as <-.
      exact Hiff. }
    destruct start.
    + destruct Hs as [r Hs].
      pose proof (do_trace w (camera_endpoint_url cam) START_REC_MODE
                           (PList []) s3) as Hs4.
      rewrite Hs in Hs4. cbn [snd] in Hs4.
      rewrite Hs4, Hs3, Hs2. unfold did. cbn [trace].
      rewrite Hevs, <- !app_assoc. reflexivity.
    + subst st'. rewrite Hs3, Hs2. unfold did. cbn [trace].
      rewrite Hevs, <- !app_assoc. reflexivity.
Qed.

Lemma construction_sequence_witness :
  exists (socket_calls : list event) (start : bool),
    forallb is_socket_event socket_calls = true /\
    py_in (str "startRecMode") (available_apis CAM1) = Return start /\
    (forall names,
       available_apis CAM1 = PList names ->
       (start = true <-> In (PStr (str "startRecMode")) names)) /\
    trace (snd (__init__ sony None (fresh [Utf8 SSDP_REPLY]))) =
    trace (fresh [Utf8 SSDP_REPLY]) ++ socket_calls ++
    [EvGet (xml_url CAM1) None;
     EvPost (camera_endpoint_url CAM1)
            (json_request (str "getAvailableApiList") (PList []))] ++
    (if start
     then [EvPost (camera_endpoint_url CAM1)
                  (json_request (str "startRecMode") (PList []))]
     else []).
Proof.
  apply (proj2 (proj2 (construction_sequence sony None (fresh [Utf8 SSDP_REPLY])))
               CAM1 (snd (__init__ sony None (fresh [Utf8 SSDP_REPLY])))).
  reflexivity.
Defined.

(** The whole run against the camera on the bench. *)
Example construction_example :
  __init__ sony None (fresh [Utf8 SSDP_REPLY]) =
  (Return CAM1,
   {| trace :=
        [EvSocket;
         EvSetTimeout 2000;
         EvSendTo M_SEARCH (str "239.255.255.250") 1900;
         EvRecvFrom 65507;
         EvGet DD_XML None;
         EvPost ENDPOINT (json_request (str "getAvailableApiList") (PList []));
         EvPost ENDPOINT (json_request (str "startRecMode") (PList []))];
      inbox := [] |}).
Proof. reflexivity. Qed.

(** A camera that lists startRecMode and then refuses it: nothing is
    constructed. *)
Example construction_aborted_by_start_rec_mode :
  fst (__init__ refusing None (fresh [Utf8 SSDP_REPLY]))
  = Raise (Exc NotAvailableError (PStr (str "Not Available Now"))).
Proof. reflexivity. Qed.


(* ===================================================================== *)
(** ** More on discovery                                                  *)
(* ===================================================================== *)

Lemma scan_lines_found (lines : list pystr) (r : result pystr) :
  scan_lines lines = Some r ->
  exists before item after,
    lines = before ++ item :: after /\
    no_location before /\
    str_in (str "LOCATION") item = true /\
    r = match index (split_on SP (strip item)) 1 with
        | Some url => Return url
        | None => Raise (Lib IndexError)
        end.
Proof.
  induction lines as [|line lines IH]; simpl; [discriminate|].
  destruct (str_in (str "LOCATION") line) eqn:Hline.
  - intros [= <-]. exists [], line, lines. repeat split; [constructor|assumption].
  - intros H. destruct (IH H) as (before & item & after & -> & Hb & Hi & Hr).
    exists (line :: before), item, after. repeat split; try assumption.
    now constructor.
Qed.

Lemma scan_lines_nothing (lines : list pystr) :
  scan_lines lines = None -> no_location lines.
Proof.
  induction lines as [|line lines IH]; simpl; [constructor|].
  destruct (str_in (str "LOCATION") line) eqn:Hline; [discriminate|].
  intros H. constructor; [assumption|now apply IH].
Qed.

(** The three ways the loop ends: the datagrams run out, one cannot be
    decoded, or one has a line with the word. *)
Lemma receive_cases (arrivals : list datagram) (done : list event) :
  exists ignored rest,
    Forall (fun d => no_location (split_on LF d)) ignored /\
    snd (receive arrivals done) =
      {| trace := done ++ repeat RECV (S (List.length ignored)); inbox := rest |} /\
    ((arrivals = List.map Utf8 ignored /\ rest = [] /\
      fst (receive arrivals done) = Raise (Lib socket_timeout)) \/
     (arrivals = List.map Utf8 ignored ++ NotUtf8 :: rest /\
      fst (receive arrivals done) = Raise (Lib UnicodeDecodeError)) \/
     (exists decoded before item after,
        arrivals = List.map Utf8 ignored ++ Utf8 decoded :: rest /\
        split_on LF decoded = before ++ item :: after /\
        no_location before /\
        str_in (str "LOCATION") item = true /\
        fst (receive arrivals done) =
          match index (split_on SP (strip item)) 1 with
          | Some url => Return url
          | None => Raise (Lib IndexError)
          end)).
Proof.
  revert done. induction arrivals as [|d arrivals IH]; intros done.
  - exists [], []. split; [constructor|]. split; [reflexivity|].
    left. repeat split.
  - destruct d as [decoded|].
    + cbn [receive]. destruct (scan_lines (split_on LF decoded)) as [r|] eqn:Hscan.
      * destruct (scan_lines_found _ Hscan)
          as (before & item & after & Hlines & Hb & Hi & ->).
        exists [], arrivals. split; [constructor|]. split; [reflexivity|].
        right. right. exists decoded, before, item, after. now repeat split.
      * destruct (IH (done ++ [EvRecvFrom 65507]))
          as (ignored & rest & Hign & Hsnd & Hcases).
        exists (decoded :: ignored), rest.
        split; [constructor; [now apply scan_lines_nothing|assumption]|].
        split.
        { rewrite Hsnd. cbn [List.length repeat]. rewrite <- app_assoc.
          reflexivity. }
        destruct Hcases as [(-> & -> & Hf)|[(-> & Hf)|
          (dec & before & item & after & -> & Hl & Hb & Hi & Hf)]].
        -- left. now repeat split.
        -- right. left. now split.
        -- right. right. exists dec, before, item, after. now repeat split.
    + exists [], arrivals. split; [constructor|]. split; [reflexivity|].
      right. left. now split.
Qed.

Lemma firstn_incl {A : Type} (k : nat) (l : list A) : incl (firstn k l) l.
Proof.
  intros x Hx. rewrite <- (firstn_skipn k l). apply in_or_app. now left.
Qed.

Lemma setup_events_no_recv (w : World) (network_interface : option pystr) :
  ~ In RECV (setup_events w network_interface).
Proof.
  unfold setup_events, RECV. destruct network_interface; simpl;
    intros H; repeat (destruct H as [H|H]; [discriminate H|]); exact H.
Qed.

(** A failure of the set-up ends the run at the call that failed. *)
Lemma discover_setup_failure_run
      (w : World) (network_interface : option pystr) (st : state) (e : exn) :
  setup_failure w network_interface = Some e ->
  exists k,
    discover w network_interface st =
    (Raise e, did st (firstn k (setup_events w network_interface))).
Proof.
  unfold setup_failure, setup_events, discover. run_monad. fold (bind_option w).
  destruct (w_socket w) as [e0|].
  { intros [= ->]. exists 1. reflexivity. }
  destruct network_interface as [iface|]; cbn [trace inbox].
  - destruct (w_setsockopt w (bind_option w) iface) as [e0|].
    { intros [= ->]. exists 2. cbn [firstn app]. rewrite <- app_assoc.
      reflexivity. }
    intros ->. exists 4. cbn [firstn app trace inbox].
    rewrite <- !app_assoc. reflexivity.
  - intros ->. exists 3. cbn [firstn app trace inbox].
    rewrite <- !app_assoc. reflexivity.
Qed.

Lemma split_on_pieces (sep : N) (s p : pystr) :
  In p (split_on sep s) -> ~ In sep p /\ incl p s.
Proof.
  revert p. induction s as [|c s IH]; intros p; simpl.
  - intros [<-|[]]. split; [intros []|apply incl_refl].
  - destruct (N.eqb_spec c sep) as [->|Hc].
    + intros [<-|Hp].
      * split; [intros []|intros x []].
      * destruct (IH _ Hp) as [Hno Hincl]. split; [assumption|].
        now apply incl_tl.
    + destruct (split_on sep s) as [|piece pieces] eqn:Hs.
      * intros [<-|[]]. split.
        -- intros [H|[]]. now apply Hc.
        -- intros x [<-|[]]. now left.
      * intros [<-|Hp].
        -- destruct (IH piece (or_introl eq_refl)) as [Hno Hincl]. split.
           ++ intros [H|H]; [now apply Hc|now apply Hno].
           ++ intros x [<-|Hx]; [now left|right; now apply Hincl].
        -- destruct (IH p (or_intror Hp)) as [Hno Hincl]. split; [assumption|].
           now apply incl_tl.
Qed.

Lemma lstrip_incl (s : pystr) : incl (lstrip s) s.
Proof.
  induction s as [|c s IH]; simpl; [apply incl_refl|].
  destruct (is_space c); [now apply incl_tl|apply incl_refl].
Qed.

Lemma strip_incl (s : pystr) : incl (strip s) s.
Proof.
  unfold strip, rstrip. intros x Hx.
  apply lstrip_incl. apply in_rev. apply lstrip_incl. now apply in_rev in Hx.
Qed.

Lemma index_In {A : Type} (l : list A) (i : Z) (x : A) :
  index l i = Some x -> In x l.
Proof.
  unfold index.
  destruct ((0 <=? (if (i <? 0)%Z then (i + Z.of_nat (List.length l))%Z else i))%Z &&
            ((if (i <? 0)%Z then (i + Z.of_nat (List.length l))%Z else i)
               <? Z.of_nat (List.length l))%Z); [|discriminate].
  apply nth_error_In.
Qed.

(** With the set-up done, the outcome and the state are those of the
    receive loop, a timeout apart. *)
Lemma discover_outcome
      (w : World) (network_interface : option pystr) (st : state) :
  setup_failure w network_interface = None ->
  let r := receive (inbox st) (trace st ++ setup_events w network_interface) in
  fst (discover w network_interface st) =
    match fst r with
    | Return url => Return url
    | Raise e => if is_socket_timeout e then Raise NOT_CONNECTED else Raise e
    end /\
  snd (discover w network_interface st) = snd r.
Proof.
  intros Hsetup r. rewrite (discover_run _ _ _ Hsetup). fold r.
  destruct r as [[url|e] st']; cbn [fst snd]; [now split|].
  destruct (is_socket_timeout e); now split.
Qed.

(** A value can only come out of the receive loop. *)
Lemma discover_return_receive
      (w : World) (network_interface : option pystr) (st : state) (url : pystr) :
  fst (discover w network_interface st) = Return url ->
  setup_failure w network_interface = None /\
  fst (receive (inbox st) (trace st ++ setup_events w network_interface))
    = Return url.
Proof.
  intros H. destruct (setup_failure w network_interface) as [e|] eqn:Hsetup.
  - destruct (discover_setup_failure_run _ _ st Hsetup) as [k Hk].
    rewrite Hk in H. discriminate H.
  - split; [reflexivity|].
    destruct (discover_outcome w network_interface st Hsetup) as [Hfst _].
    rewrite Hfst in H.
    destruct (fst (receive (inbox st) (trace st ++ setup_events w network_interface)))
      as [u|e]; [assumption|].
    destruct (is_socket_timeout e); discriminate H.
Qed.

(** The events of any run of [discover]: a first part of the set-up,
    then the calls of [recvfrom], which need the whole set-up. *)
Lemma discover_events
      (w : World) (network_interface : option pystr) (st : state) :
  exists k n,
    trace (snd (discover w network_interface st)) =
      trace st ++ firstn k (setup_events w network_interface) ++ repeat RECV n /\
    (n <> 0 ->
     firstn k (setup_events w network_interface) = setup_events w network_interface).
Proof.
  destruct (setup_failure w network_interface) as [e|] eqn:Hsetup.
  - destruct (discover_setup_failure_run _ _ st Hsetup) as [k Hk].
    exists k, 0. rewrite Hk. cbn [snd did trace repeat]. rewrite app_nil_r.
    split; [reflexivity|]. intros H. now destruct H.
  - destruct (discover_outcome w network_interface st Hsetup) as [_ Hsnd].
    cbv zeta in Hsnd. rewrite Hsnd.
    destruct (receive_cases (inbox st) (trace st ++ setup_events w network_interface))
      as (ignored & rest & _ & Hst & _).
    rewrite Hst. cbn [trace].
    exists (List.length (setup_events w network_interface)), (S (List.length ignored)).
    rewrite firstn_all, <- app_assoc. split; reflexivity.
Qed.

(** X1.  Whenever [discover] returns a URL, it is the piece at index 1
    of the first line with the word LOCATION in the first datagram that
    has such a line, and every datagram before that one was decoded and
    had no such line: nothing else is ever returned. *)
Theorem discover_returns_received_text
        (w : World) (network_interface : option pystr) (st : state) (url : pystr) :
  fst (discover w network_interface st) = Return url ->
  exists ignored decoded rest before item after,
    inbox st = List.map Utf8 ignored ++ Utf8 decoded :: rest /\
    Forall (fun d => no_location (split_on LF d)) ignored /\
    split_on LF decoded = before ++ item :: after /\
    no_location before /\
    str_in (str "LOCATION") item = true /\
    index (split_on SP (strip item)) 1 = Some url /\
    inbox (snd (discover w network_interface st)) = rest.
Proof.
  intros H. destruct (discover_return_receive _ _ _ H) as [Hsetup Hrecv].
  destruct (discover_outcome w network_interface st Hsetup) as [_ Hsnd].
  cbv zeta in Hsnd. rewrite Hsnd.
  destruct (receive_cases (inbox st) (trace st ++ setup_events w network_interface))
    as (ignored & rest & Hign & Hst & Hcases).
  rewrite Hst. cbn [inbox].
  destruct Hcases as [(_ & _ & Hf)|[(_ & Hf)|
    (decoded & before & item & after & Hin & Hl & Hb & Hi & Hf)]];
    rewrite Hf in Hrecv; try discriminate Hrecv.
  exists ignored, decoded, rest, before, item, after.
  repeat split; try assumption.
  destruct (index (split_on SP (strip item)) 1); [|discriminate Hrecv].
  now injection Hrecv as ->.
Qed.

Lemma discover_returns_received_text_witness :
  exists ignored decoded rest before item after,
    inbox (fresh [Utf8 NOTIFY; Utf8 WORD_INSIDE; Utf8 SSDP_REPLY])
      = List.map Utf8 ignored ++ Utf8 decoded :: rest /\
    Forall (fun d => no_location (split_on LF d)) ignored /\
    split_on LF decoded = before ++ item :: after /\
    no_location before /\
    str_in (str "LOCATION") item = true /\
    index (split_on SP (strip item)) 1 = Some (str "rear") /\
    inbox (snd (discover sony None
                  (fresh [Utf8 NOTIFY; Utf8 WORD_INSIDE; Utf8 SSDP_REPLY]))) = rest.
Proof.
  apply (@discover_returns_received_text sony None
           (fresh [Utf8 NOTIFY; Utf8 WORD_INSIDE; Utf8 SSDP_REPLY]) (str "rear")).
  reflexivity.
Defined.

(** X2.  A URL that [discover] returns has no blank and no line feed in
    it, whatever was received. *)
Theorem discover_url_without_blank
        (w : World) (network_interface : option pystr) (st : state) (url : pystr) :
  fst (discover w network_interface st) = Return url ->
  ~ In SP url /\ ~ In LF url.
Proof.
  intros H. destruct (discover_return_receive _ _ _ H) as [Hsetup Hrecv].
  destruct (receive_cases (inbox st) (trace st ++ setup_events w network_interface))
    as (ignored & rest & _ & _ & Hcases).
  destruct Hcases as [(_ & _ & Hf)|[(_ & Hf)|
    (decoded & before & item & after & _ & Hl & _ & _ & Hf)]];
    rewrite Hf in Hrecv; try discriminate Hrecv.
  destruct (index (split_on SP (strip item)) 1) as [u|] eqn:Hu;
    [|discriminate Hrecv].
  injection Hrecv as ->.
  apply index_In in Hu. apply split_on_pieces in Hu as [Hsp Hincl].
  split; [assumption|].
  intros Hlf.
  assert (Hitem : In item (split_on LF decoded)).
  { rewrite Hl. apply in_or_app. right. now left. }
  apply split_on_pieces in Hitem as [Hno _]. apply Hno.
  apply strip_incl, Hincl, Hlf.
Qed.

Lemma discover_url_without_blank_witness :
  ~ In SP DD_XML /\ ~ In LF DD_XML.
Proof.
  apply (@discover_url_without_blank sony (Some (str "wlan0"))
           (fresh [Utf8 SSDP_REPLY]) DD_XML).
  reflexivity.
Defined.

(** X4.  When creating the socket, binding it or sending the query
    fails, [discover] raises that exception as it is, not as
    ConnectionError; [recvfrom] is not called and the datagrams on
    their way stay unread. *)
Theorem discover_setup_failure_propagates
        (w : World) (network_interface : option pystr) (st : state) (e : exn) :
  setup_failure w network_interface = Some e ->
  exists evs,
    discover w network_interface st = (Raise e, did st evs) /\
    ~ In (EvRecvFrom 65507) evs.
Proof.
  intros Hsetup.
  destruct (discover_setup_failure_run _ _ st Hsetup) as [k Hk].
  exists (firstn k (setup_events w network_interface)). split; [assumption|].
  intros Hin. apply firstn_incl in Hin.
  exact (@setup_events_no_recv w network_interface Hin).
Qed.

Lemma discover_setup_failure_propagates_witness :
  exists evs,
    discover offline None (fresh [Utf8 SSDP_REPLY])
      = (Raise (Lib OSError), did (fresh [Utf8 SSDP_REPLY]) evs) /\
    ~ In (EvRecvFrom 65507) evs.
Proof.
  apply (@discover_setup_failure_propagates offline None
           (fresh [Utf8 SSDP_REPLY]) (Lib OSError)).
  reflexivity.
Defined.

Lemma filter_sendto_repeat (n : nat) : filter is_sendto (repeat RECV n) = [].
Proof. induction n; simpl; auto. Qed.

Lemma filter_firstn_length {A : Type} (f : A -> bool) (k : nat) (l : list A) :
  List.length (filter f (firstn k l)) <= List.length (filter f l).
Proof.
  rewrite <- (firstn_skipn k l) at 2. rewrite filter_app, length_app. lia.
Qed.

Lemma setup_events_one_send (w : World) (network_interface : option pystr) :
  List.length (filter is_sendto (setup_events w network_interface)) = 1.
Proof. destruct network_interface; reflexivity. Qed.

Lemma setup_events_shape (w : World) (network_interface : option pystr) (ev : event) :
  In ev (setup_events w network_interface) ->
  ev = EvSocket \/
  (exists iface, network_interface = Some iface /\
                 ev = EvSetSockOpt (bind_option w) iface) \/
  ev = EvSetTimeout 2000 \/
  ev = EvSendTo M_SEARCH (str "239.255.255.250") 1900.
Proof.
  unfold setup_events. destruct network_interface as [iface|]; simpl.
  - intros [<-|[<-|[<-|[<-|[]]]]]; auto.
    right. left. now exists iface.
  - intros [<-|[<-|[<-|[]]]]; auto.
Qed.

(** With an interface given and a socket made, the next call binds it. *)
Lemma discover_binds
      (w : World) (iface : pystr) (st : state) :
  w_socket w = None ->
  exists later,
    trace (snd (discover w (Some iface) st)) =
    trace st ++ [EvSocket; EvSetSockOpt (bind_option w) iface] ++ later.
Proof.
  intros Hsocket.
  destruct (setup_failure w (Some iface)) as [e|] eqn:Hsetup.
  - unfold setup_failure in Hsetup. rewrite Hsocket in Hsetup.
    unfold discover. run_monad. fold (bind_option w). rewrite Hsocket.
    cbn [trace inbox].
    destruct (w_setsockopt w (bind_option w) iface) as [e0|].
    + exists []. cbn [snd trace]. rewrite <- app_assoc. reflexivity.
    + rewrite Hsetup. cbn [snd trace]. rewrite <- !app_assoc.
      eexists. reflexivity.
  - destruct (discover_outcome w (Some iface) st Hsetup) as [_ Hsnd].
    cbv zeta in Hsnd. rewrite Hsnd.
    destruct (receive_trace (inbox st) (trace st ++ setup_events w (Some iface)))
      as [n Hn].
    rewrite Hn. unfold setup_events. rewrite <- !app_assoc.
    eexists. reflexivity.
Qed.

(** X6.  The socket is bound to an interface exactly on request: a
    [setsockopt] call is made only when an interface was given, for
    that interface and with the platform's SO_BINDTODEVICE or, where the
    platform has none, with 25; and with an interface given it is the
    first call on the socket. *)
Theorem discover_binds_on_request
        (w : World) (network_interface : option pystr) (st : state) :
  exists evs,
    trace (snd (discover w network_interface st)) = trace st ++ evs /\
    (forall optname value,
       In (EvSetSockOpt optname value) evs ->
       network_interface = Some value /\
       (w_SO_BINDTODEVICE w = Some optname \/
        (w_SO_BINDTODEVICE w = None /\ optname = 25%Z))) /\
    (forall iface,
       network_interface = Some iface ->
       w_socket w = None ->
       exists optname later,
         evs = [EvSocket; EvSetSockOpt optname iface] ++ later).
Proof.
  destruct (discover_events w network_interface st) as (k & n & Htrace & _).
  exists (firstn k (setup_events w network_interface) ++ repeat RECV n).
  split; [assumption|]. split.
  - intros optname value Hin. apply in_app_or in Hin as [Hin|Hin].
    + apply firstn_incl, setup_events_shape in Hin
        as [H|[(iface & -> & H)|[H|H]]]; try discriminate H.
      injection H as -> ->. split; [reflexivity|].
      unfold bind_option. destruct (w_SO_BINDTODEVICE w); auto.
    + apply repeat_spec in Hin. discriminate Hin.
  - intros iface -> Hsocket.
    destruct (discover_binds w iface st Hsocket) as [later Hlater].
    rewrite Hlater in Htrace. apply app_inv_head in Htrace.
    exists (bind_option w), later. now rewrite <- Htrace.
Qed.

(** X7.  The query is never sent twice: in any run [discover] calls
    [sendto] at most once, with the M-SEARCH text, to 239.255.255.250
    port 1900; and every [recvfrom] was preceded by that one send. *)
Theorem discover_sends_once
        (w : World) (network_interface : option pystr) (st : state) :
  exists evs,
    trace (snd (discover w network_interface st)) = trace st ++ evs /\
    List.length (filter is_sendto evs) <= 1 /\
    (forall payload host port,
       In (EvSendTo payload host port) evs ->
       payload = M_SEARCH /\ host = str "239.255.255.250" /\ port = 1900%Z) /\
    (In (EvRecvFrom 65507) evs ->
     exists before after,
       evs = before ++ EvSendTo M_SEARCH (str "239.255.255.250") 1900 :: after /\
       ~ In (EvRecvFrom 65507) before).
Proof.
  destruct (discover_events w network_interface st) as (k & n & Htrace & Hfull).
  exists (firstn k (setup_events w network_interface) ++ repeat RECV n).
  split; [assumption|]. split; [|split].
  - rewrite filter_app, length_app, filter_sendto_repeat. cbn [List.length].
    pose proof (filter_firstn_length is_sendto k (setup_events w network_interface)).
    rewrite setup_events_one_send in H. lia.
  - intros payload host port Hin. apply in_app_or in Hin as [Hin|Hin].
    + apply firstn_incl, setup_events_shape in Hin
        as [H|[(iface & _ & H)|[H|H]]]; try discriminate H.
      now injection H as -> -> ->.
    + apply repeat_spec in Hin. discriminate Hin.
  - intros Hin. apply in_app_or in Hin as [Hin|Hin].
    + apply firstn_incl in Hin.
      now destruct (@setup_events_no_recv w network_interface Hin).
    + assert (Hn : n <> 0) by (intros ->; destruct Hin).
      rewrite (Hfull Hn).
      exists ([EvSocket] ++
              match network_interface with
              | Some iface => [EvSetSockOpt (bind_option w) iface]
              | None => []
              end ++ [EvSetTimeout 2000]),
             (repeat RECV n).
      split.
      * unfold setup_events. destruct network_interface; reflexivity.
      * destruct network_interface; simpl; intros H;
          repeat (destruct H as [H|H]; [discriminate H|]); exact H.
Qed.

(** X8.  With the socket set up and the query sent, [discover] raises
    ConnectionError exactly when every datagram that arrives can be
    decoded and none has a line with the word LOCATION. *)
Theorem discover_not_connected_iff
        (w : World) (network_interface : option pystr) (st : state) :
  setup_failure w network_interface = None ->
  fst (discover w network_interface st)
    = Raise (Exc ConnectionError
                 (PStr (str "You are not connected to the camera's wifi.")))
  <->
  exists ignored,
    inbox st = List.map Utf8 ignored /\
    Forall (fun d => no_location (split_on LF d)) ignored.
Proof.
  intros Hsetup. split.
  - intros H.
    destruct (discover_outcome w network_interface st Hsetup) as [Hfst _].
    cbv zeta in Hfst. rewrite Hfst in H.
    destruct (receive_cases (inbox st) (trace st ++ setup_events w network_interface))
      as (ignored & rest & Hign & _ & Hcases).
    destruct Hcases as [(Hin & _ & _)|[(_ & Hf)|
      (decoded & before & item & after & _ & _ & _ & _ & Hf)]].
    + now exists ignored.
    + rewrite Hf in H. discriminate H.
    + rewrite Hf in H.
      destruct (index (split_on SP (strip item)) 1); discriminate H.
  - intros (ignored & Hin & Hign).
    now rewrite (discover_nothing_found w network_interface st Hsetup Hin Hign).
Qed.

Lemma discover_not_connected_iff_witness :
  fst (discover sony None (fresh [Utf8 NOTIFY; Utf8 NOTIFY]))
    = Raise (Exc ConnectionError
                 (PStr (str "You are not connected to the camera's wifi.")))
  <->
  exists ignored,
    inbox (fresh [Utf8 NOTIFY; Utf8 NOTIFY]) = List.map Utf8 ignored /\
    Forall (fun d => no_location (split_on LF d)) ignored.
Proof.
  apply (@discover_not_connected_iff sony None (fresh [Utf8 NOTIFY; Utf8 NOTIFY])).
  reflexivity.
Defined.

(* ===================================================================== *)
(** ** More on the descriptor                                             *)
(* ===================================================================== *)

Lemma key_eqb_eq (a b : option pystr) : key_eqb a b = true <-> a = b.
Proof.
  destruct a as [x|], b as [y|]; simpl; split; try congruence; try reflexivity.
  - intros H. apply pystr_eqb_eq in H. now subst.
  - intros [= ->]. apply pystr_eqb_refl.
Qed.

Lemma key_eqb_neq (a b : option pystr) : key_eqb a b = false <-> a <> b.
Proof.
  destruct (key_eqb a b) eqn:H; split; try congruence.
  - apply key_eqb_eq in H. congruence.
  - intros _ Heq. apply key_eqb_eq in Heq. congruence.
Qed.

(** [d[k] = v] and then [d[k']]. *)
Lemma dict_lookup_set (d : services_dict) (k v k' : option pystr) :
  dict_lookup (dict_set d k v) k' =
  if key_eqb k k' then Some v else dict_lookup d k'.
Proof.
  induction d as [|[k0 v0] d IH]; simpl.
  - reflexivity.
  - destruct (key_eqb k0 k) eqn:H0.
    + apply key_eqb_eq in H0. subst k0. simpl.
      destruct (key_eqb k k'); reflexivity.
    + simpl. destruct (key_eqb k0 k') eqn:H1.
      * apply key_eqb_eq in H1. subst k0. apply key_eqb_neq in H0.
        assert (Hk : key_eqb k k' = false) by (apply key_eqb_neq; congruence).
        now rewrite Hk.
      * exact IH.
Qed.

Lemma dict_set_keys (d : services_dict) (k v k' : option pystr) :
  In k' (List.map fst (dict_set d k v)) <-> k' = k \/ In k' (List.map fst d).
Proof.
  induction d as [|[k0 v0] d IH]; simpl.
  - intuition congruence.
  - destruct (key_eqb k0 k) eqn:H0; simpl.
    + apply key_eqb_eq in H0. subst k0. intuition congruence.
    + rewrite IH. intuition congruence.
Qed.

Lemma dict_set_NoDup (d : services_dict) (k v : option pystr) :
  NoDup (List.map fst d) -> NoDup (List.map fst (dict_set d k v)).
Proof.
  induction d as [|[k0 v0] d IH]; simpl; intros H.
  - constructor; [intros []|constructor].
  - inversion H as [|? ? Hnot Hd]; subst.
    destruct (key_eqb k0 k) eqn:H0; simpl.
    + now constructor.
    + constructor; [|now apply IH].
      rewrite dict_set_keys. intros [->|Hin]; [|now apply Hnot].
      apply key_eqb_neq in H0. now apply H0.
Qed.

Lemma dict_lookup_keys (d : services_dict) (k : option pystr) :
  In k (List.map fst d) <-> dict_lookup d k <> None.
Proof.
  induction d as [|[k0 v0] d IH]; simpl.
  - split; [intros []|congruence].
  - destruct (key_eqb k0 k) eqn:H0.
    + apply key_eqb_eq in H0. split; [discriminate|now left].
    + rewrite <- IH. apply key_eqb_neq in H0. intuition congruence.
Qed.

Lemma find_app {A : Type} (f : A -> bool) (a b : list A) :
  List.find f (a ++ b) =
  match List.find f a with
  | Some x => Some x
  | None => List.find f b
  end.
Proof.
  induction a as [|x a IH]; simpl; [reflexivity|].
  destruct (f x); [reflexivity|exact IH].
Qed.

(** The loop over the entries: all of them or none. *)
Lemma collect_services_spec (service_list : list element) (d : services_dict) :
  collect_services service_list d =
  if forallb complete_entry service_list
  then Return (fold_left add_entry service_list d)
  else Raise (Lib AttributeError).
Proof.
  revert d. induction service_list as [|s l IH]; intros d; [reflexivity|].
  cbn [collect_services forallb fold_left].
  unfold complete_entry at 1, add_entry at 2, service_type, action_url, text_of.
  destruct (find SERVICE_TYPE s) as [t|]; [|reflexivity].
  destruct (find ACTION_LIST_URL s) as [u|]; [|reflexivity].
  cbn [andb]. apply IH.
Qed.

Lemma has_type_complete (k : option pystr) (s : element) :
  complete_entry s = true -> has_type k s = key_eqb (service_type s) k.
Proof.
  unfold complete_entry, has_type, service_type.
  destruct (find SERVICE_TYPE s); [reflexivity|discriminate].
Qed.

(** The dict after the loop: the last entry of a type decides. *)
Lemma fold_add_entry_lookup (l : list element) (d : services_dict)
      (k : option pystr) :
  forallb complete_entry l = true ->
  dict_lookup (fold_left add_entry l d) k =
  match List.find (has_type k) (rev l) with
  | Some s => Some (action_url s)
  | None => dict_lookup d k
  end.
Proof.
  revert d. induction l as [|s l IH]; intros d Hall; [reflexivity|].
  cbn [forallb] in Hall. apply andb_true_iff in Hall as [Hs Hl].
  cbn [fold_left rev]. rewrite (IH _ Hl), find_app.
  destruct (List.find (has_type k) (rev l)); [reflexivity|].
  cbn [List.find]. rewrite (has_type_complete k s Hs).
  unfold add_entry. rewrite dict_lookup_set.
  destruct (key_eqb (service_type s) k); reflexivity.
Qed.

Lemma fold_add_entry_NoDup (l : list element) (d : services_dict) :
  NoDup (List.map fst d) -> NoDup (List.map fst (fold_left add_entry l d)).
Proof.
  revert d. induction l as [|s l IH]; intros d H; [assumption|].
  cbn [fold_left]. apply IH. now apply dict_set_NoDup.
Qed.

(** What a successful [connect] has read. *)
Lemma connect_success (w : World) (url : pystr) (st st' : state)
      (n v : option pystr) (d : services_dict) :
  connect w url st = (Return (n, v, d), st') ->
  exists xml service_list,
    w_get w (trace st) url None = Return (Xml xml) /\
    text_of (find FRIENDLY_NAME xml) = Return n /\
    text_of (find API_VERSION xml) = Return v /\
    find SERVICE_LIST xml = Some service_list /\
    forallb complete_entry (children service_list) = true /\
    d = fold_left add_entry (children service_list) [].
Proof.
  unfold connect. run_monad.
  destruct (w_get w (trace st) url None) as [c|e]; [|discriminate].
  destruct c as [j|xml| |]; try discriminate. cbn [xml_fromstring].
  destruct (text_of (find FRIENDLY_NAME xml)) as [n0|] eqn:Hn; [|discriminate].
  destruct (text_of (find API_VERSION xml)) as [v0|] eqn:Hv; [|discriminate].
  destruct (find SERVICE_LIST xml) as [sl|] eqn:Hsl; [|discriminate].
  rewrite collect_services_spec.
  destruct (forallb complete_entry (children sl)) eqn:Hall; [|discriminate].
  intros [= <- <- <- _]. exists xml, sl. now repeat split.
Qed.

(** X9.  In the services mapping that [connect] returns, a service type
    is bound to the URL of the last entry of the descriptor's service
    list that has this type; a type that no entry has is not a key. *)
Theorem connect_last_entry_wins
        (w : World) (url : pystr) (st st' : state)
        (n v : option pystr) (d : services_dict) :
  connect w url st = (Return (n, v, d), st') ->
  exists xml service_list,
    w_get w (trace st) url None = Return (Xml xml) /\
    find SERVICE_LIST xml = Some service_list /\
    forall k,
      dict_lookup d k =
      match List.find (has_type k) (rev (children service_list)) with
      | Some service => Some (action_url service)
      | None => None
      end.
Proof.
  intros H.
  destruct (connect_success _ _ _ H) as (xml & sl & Hget & _ & _ & Hsl & Hall & ->).
  exists xml, sl. repeat split; try assumption.
  intros k. now rewrite (fold_add_entry_lookup _ [] k Hall).
Qed.

Lemma connect_last_entry_wins_witness :
  exists xml service_list,
    w_get listed_twice (trace (fresh [])) DD_XML None = Return (Xml xml) /\
    find SERVICE_LIST xml = Some service_list /\
    forall k,
      dict_lookup [(Some (str "camera"), Some (str "http://cam/sony"));
                   (Some (str "guide"), Some (str "http://cam/sony"))] k =
      match List.find (has_type k) (rev (children service_list)) with
      | Some service => Some (action_url service)
      | None => None
      end.
Proof.
  apply (@connect_last_entry_wins listed_twice DD_XML (fresh [])
           (did (fresh []) [EvGet DD_XML None])
           (Some (str "Cam1")) (Some (str "2.0"))).
  reflexivity.
Defined.

(** X10.  The keys of the services mapping that [connect] returns are
    the service types of the descriptor's entries, each once. *)
Theorem connect_keys
        (w : World) (url : pystr) (st st' : state)
        (n v : option pystr) (d : services_dict) :
  connect w url st = (Return (n, v, d), st') ->
  NoDup (List.map fst d) /\
  exists xml service_list,
    w_get w (trace st) url None = Return (Xml xml) /\
    find SERVICE_LIST xml = Some service_list /\
    forall k,
      In k (List.map fst d) <->
      exists service,
        In service (children service_list) /\ has_type k service = true.
Proof.
  intros H.
  destruct (connect_success _ _ _ H) as (xml & sl & Hget & _ & _ & Hsl & Hall & ->).
  split; [apply fold_add_entry_NoDup; constructor|].
  exists xml, sl. repeat split; try assumption.
  - intros Hin. apply dict_lookup_keys in Hin.
    rewrite (fold_add_entry_lookup _ [] k Hall) in Hin.
    destruct (List.find (has_type k) (rev (children sl))) as [s|] eqn:Hfind.
    + apply find_some in Hfind as [Hs Ht]. exists s. split; [|assumption].
      now apply in_rev.
    + now destruct Hin.
  - intros (s & Hs & Ht). apply dict_lookup_keys.
    rewrite (fold_add_entry_lookup _ [] k Hall).
    destruct (List.find (has_type k) (rev (children sl))) as [s'|] eqn:Hfind.
    + discriminate.
    + apply in_rev in Hs.
      rewrite (find_none _ _ Hfind s Hs) in Ht. discriminate Ht.
Qed.

Lemma connect_keys_witness :
  NoDup (List.map fst [(Some (str "camera"), Some (str "http://cam/sony"));
                       (Some (str "guide"), Some (str "http://cam/sony"))]) /\
  exists xml service_list,
    w_get listed_twice (trace (fresh [])) DD_XML None = Return (Xml xml) /\
    find SERVICE_LIST xml = Some service_list /\
    forall k,
      In k (List.map fst [(Some (str "camera"), Some (str "http://cam/sony"));
                          (Some (str "guide"), Some (str "http://cam/sony"))]) <->
      exists service,
        In service (children service_list) /\ has_type k service = true.
Proof.
  apply (@connect_keys listed_twice DD_XML (fresh [])
           (did (fresh []) [EvGet DD_XML None])
           (Some (str "Cam1")) (Some (str "2.0"))).
  reflexivity.
Defined.

(** X11.  One entry of the service list without its service-type or
    its URL child spoils the whole descriptor: [connect] raises
    AttributeError and returns no mapping, whatever the other entries
    are and wherever the entry stands. *)
Theorem connect_incomplete_entry
        (w : World) (url : pystr) (st : state)
        (xml service_list : element) (n v : option pystr) (service : element) :
  w_get w (trace st) url None = Return (Xml xml) ->
  text_of (find FRIENDLY_NAME xml) = Return n ->
  text_of (find API_VERSION xml) = Return v ->
  find SERVICE_LIST xml = Some service_list ->
  In service (children service_list) ->
  complete_entry service = false ->
  connect w url st = (Raise (Lib AttributeError), did st [EvGet url None]).
Proof.
  intros Hget Hn Hv Hsl Hin Hbad.
  unfold connect. run_monad. rewrite Hget. cbn [xml_fromstring].
  rewrite Hn, Hv, Hsl, collect_services_spec.
  destruct (forallb complete_entry (children service_list)) eqn:Hall;
    [|reflexivity].
  rewrite forallb_forall in Hall. rewrite (Hall _ Hin) in Hbad. discriminate.
Qed.

Lemma connect_incomplete_entry_witness :
  connect half_listed DD_XML (fresh []) =
  (Raise (Lib AttributeError), did (fresh []) [EvGet DD_XML None]).
Proof.
  apply (@connect_incomplete_entry half_listed DD_XML (fresh [])
           (descriptor [service_entry "guide" "http://cam/sony"; half_entry])
           (Element (av "X_ScalarWebAPI_ServiceList") None
                    [service_entry "guide" "http://cam/sony"; half_entry])
           (Some (str "Cam1")) (Some (str "2.0")) half_entry);
    try reflexivity.
  right. now left.
Defined.

(* ===================================================================== *)
(** ** More on the dispatcher                                             *)
(* ===================================================================== *)

Lemma eq_int_not_number (v : pyval) (z : Z) :
  is_number v = false -> eq_int v z = false.
Proof. destruct v; try reflexivity; discriminate. Qed.

(** A returned value does not depend on [param]: only the message of
    IllegalArgumentError reads it. *)
Lemma normalize_return (w : World) (param param' response r : pyval) :
  normalize w param response = Return r ->
  normalize w param' response = Return r.
Proof.
  unfold normalize.
  destruct (py_in (str "error") response) as [[|]|e]; [|trivial|trivial].
  destruct (getitem_key response (str "error")) as [error|e]; [|trivial].
  destruct (getitem_index error 0) as [code|e]; [|trivial].
  destruct (getitem_index error (-1)) as [message|e]; [|trivial].
  destruct (eq_int code 1); [discriminate|].
  destruct (eq_int code 3).
  { destruct (add_str message (str ": " ++ format w param)); discriminate. }
  destruct (eq_int code 12).
  { destruct (radd_str (str "Invalid action: ") message); discriminate. }
  destruct (eq_int code 403); [discriminate|].
  destruct (eq_int code 500); [discriminate|].
  destruct (eq_int code 40403); discriminate.
Qed.

(** X12.  Whenever ["error" in response] holds, [do] raises and returns
    nothing, whatever the member is bound to: the typed error for a
    well-formed payload, and IndexError, KeyError or TypeError for
    another one.  This also covers a reply that is a list with the
    element "error" or a string that has the word in it. *)
Theorem do_error_member_always_raises
        (w : World) (url method : pystr) (param : pyval) (st : state)
        (response : pyval) :
  w_post w (trace st) url (json_request method param)
    = Return (Json response) ->
  py_in (str "error") response = Return true ->
  exists e,
    do w url method param st =
    (Raise e, did st [EvPost url (json_request method param)]).
Proof.
  intros Hpost Hin. rewrite do_run, Hpost. cbn [json_loads].
  unfold normalize. rewrite Hin.
  destruct (getitem_key response (str "error")) as [error|e];
    [|eexists; reflexivity].
  destruct (getitem_index error 0) as [code|e]; [|eexists; reflexivity].
  destruct (getitem_index error (-1)) as [message|e]; [|eexists; reflexivity].
  destruct (eq_int code 1); [eexists; reflexivity|].
  destruct (eq_int code 3).
  { destruct (add_str message (str ": " ++ format w param));
      eexists; reflexivity. }
  destruct (eq_int code 12).
  { destruct (radd_str (str "Invalid action: ") message);
      eexists; reflexivity. }
  destruct (eq_int code 403); [eexists; reflexivity|].
  destruct (eq_int code 500); [eexists; reflexivity|].
  destruct (eq_int code 40403); eexists; reflexivity.
Qed.

Lemma do_error_member_always_raises_witness :
  exists e,
    do (answering (PDict [(str "error", PStr (str "busy"))])) ENDPOINT
       (str "getEvent") (PList []) (fresh []) =
    (Raise e,
     did (fresh []) [EvPost ENDPOINT (json_request (str "getEvent") (PList []))]).
Proof.
  apply (@do_error_member_always_raises
           (answering (PDict [(str "error", PStr (str "busy"))])) ENDPOINT
           (str "getEvent") (PList []) (fresh [])
           (PDict [(str "error", PStr (str "busy"))]));
    reflexivity.
Defined.

(** X13.  A reply that is JSON but not an object never gives a value:
    [do] raises TypeError for null, a boolean or a number, and for a
    list or a string TypeError when ["error" in response] holds and
    AttributeError otherwise. *)
Theorem do_reply_not_an_object
        (w : World) (url method : pystr) (param : pyval) (st : state)
        (response : pyval) :
  w_post w (trace st) url (json_request method param)
    = Return (Json response) ->
  is_dict response = false ->
  exists e,
    do w url method param st =
    (Raise e, did st [EvPost url (json_request method param)]) /\
    (py_in (str "error") response = Return false -> e = Lib AttributeError) /\
    (py_in (str "error") response <> Return false -> e = Lib TypeError).
Proof.
  intros Hpost Hdict. rewrite do_run, Hpost. cbn [json_loads].
  unfold normalize.
  destruct response as [ |b|z|f|s|l|kvs]; try discriminate Hdict;
    cbn [py_in];
    try (exists (Lib TypeError); split; [reflexivity|];
         split; [discriminate|reflexivity]).
  - destruct (str_in (str "error") s).
    + exists (Lib TypeError). split; [reflexivity|].
      split; [discriminate|reflexivity].
    + exists (Lib AttributeError). split; [reflexivity|].
      split; [reflexivity|]. intros H. now destruct H.
  - destruct (existsb (fun x => eq_str x (str "error")) l).
    + exists (Lib TypeError). split; [reflexivity|].
      split; [discriminate|reflexivity].
    + exists (Lib AttributeError). split; [reflexivity|].
      split; [reflexivity|]. intros H. now destruct H.
Qed.

Lemma do_reply_not_an_object_witness :
  exists e,
    do (answering (PList [PInt 1; PInt 2])) ENDPOINT (str "getEvent")
       (PList []) (fresh []) =
    (Raise e,
     did (fresh []) [EvPost ENDPOINT (json_request (str "getEvent") (PList []))]) /\
    (py_in (str "error") (PList [PInt 1; PInt 2]) = Return false ->
     e = Lib AttributeError) /\
    (py_in (str "error") (PList [PInt 1; PInt 2]) <> Return false ->
     e = Lib TypeError).
Proof.
  apply (@do_reply_not_an_object (answering (PList [PInt 1; PInt 2])) ENDPOINT
           (str "getEvent") (PList []) (fresh []) (PList [PInt 1; PInt 2]));
    reflexivity.
Defined.

(** X14.  An error member bound to an empty sequence has no code to
    read: [do] raises IndexError. *)
Theorem do_empty_error
        (w : World) (url method : pystr) (param : pyval) (st : state)
        (kvs : list (pystr * pyval)) (error : pyval) :
  w_post w (trace st) url (json_request method param)
    = Return (Json (PDict kvs)) ->
  assoc (str "error") kvs = Some error ->
  error = PList [] \/ error = PStr [] ->
  do w url method param st =
  (Raise (Lib IndexError), did st [EvPost url (json_request method param)]).
Proof.
  intros Hpost Herr Hempty. rewrite do_run, Hpost. cbn [json_loads].
  unfold normalize, py_in, getitem_key.
  rewrite assoc_existsb, Herr.
  destruct Hempty as [-> | ->]; reflexivity.
Qed.

Lemma do_empty_error_witness :
  do (answering (rpc_error [])) ENDPOINT (str "getEvent") (PList []) (fresh []) =
  (Raise (Lib IndexError),
   did (fresh []) [EvPost ENDPOINT (json_request (str "getEvent") (PList []))]).
Proof.
  apply (@do_empty_error (answering (rpc_error [])) ENDPOINT (str "getEvent")
           (PList []) (fresh [])
           [(str "error", PList []); (str "id", PInt 1)] (PList []));
    try reflexivity.
  now left.
Defined.

(** X15.  For the codes 3 and 12 the message is joined to a text, so a
    last element that is not a string, which includes the code itself
    when the sequence has that one element, makes [do] raise TypeError
    in place of IllegalArgumentError or InvalidActionError. *)
Theorem do_message_not_text
        (w : World) (url method : pystr) (param : pyval) (st : state)
        (kvs : list (pystr * pyval)) (error : list pyval)
        (code : Z) (message : pyval) :
  w_post w (trace st) url (json_request method param)
    = Return (Json (PDict kvs)) ->
  assoc (str "error") kvs = Some (PList error) ->
  index error 0 = Some (PInt code) ->
  code = 3%Z \/ code = 12%Z ->
  index error (-1) = Some message ->
  is_str message = false ->
  do w url method param st =
  (Raise (Lib TypeError), did st [EvPost url (json_request method param)]).
Proof.
  intros Hpost Herr Hcode Hwhich Hmsg Hstr.
  rewrite do_run, Hpost. cbn [json_loads].
  rewrite (normalize_error w param kvs Herr Hcode Hmsg).
  destruct Hwhich as [-> | ->]; cbn [eq_int Z.eqb Pos.eqb];
    destruct message; try discriminate Hstr; reflexivity.
Qed.

Lemma do_message_not_text_witness :
  do (answering (rpc_error [PInt 12])) ENDPOINT (str "nonexistentMethod")
     (PList []) (fresh []) =
  (Raise (Lib TypeError),
   did (fresh [])
       [EvPost ENDPOINT (json_request (str "nonexistentMethod") (PList []))]).
Proof.
  apply (@do_message_not_text (answering (rpc_error [PInt 12])) ENDPOINT
           (str "nonexistentMethod") (PList []) (fresh [])
           [(str "error", PList [PInt 12]); (str "id", PInt 1)]
           [PInt 12] 12%Z (PInt 12));
    try reflexivity.
  now right.
Defined.

(** X16.  Without an error member, a result that is null, a boolean or
    a number has no length: [do] raises TypeError. *)
Theorem do_result_without_length
        (w : World) (url method : pystr) (param : pyval) (st : state)
        (kvs : list (pystr * pyval)) (result : pyval) :
  w_post w (trace st) url (json_request method param)
    = Return (Json (PDict kvs)) ->
  assoc (str "error") kvs = None ->
  assoc (str "result") kvs = Some result ->
  is_sized result = false ->
  do w url method param st =
  (Raise (Lib TypeError), did st [EvPost url (json_request method param)]).
Proof.
  intros Hpost Herr Hres Hsized.
  rewrite do_run, Hpost. cbn [json_loads].
  rewrite (normalize_success w param kvs Herr), Hres.
  destruct result; try discriminate Hsized; reflexivity.
Qed.

Lemma do_result_without_length_witness :
  do (answering (PDict [(str "result", PNone); (str "id", PInt 1)])) ENDPOINT
     (str "getEvent") (PList []) (fresh []) =
  (Raise (Lib TypeError),
   did (fresh []) [EvPost ENDPOINT (json_request (str "getEvent") (PList []))]).
Proof.
  apply (@do_result_without_length
           (answering (PDict [(str "result", PNone); (str "id", PInt 1)]))
           ENDPOINT (str "getEvent") (PList []) (fresh [])
           [(str "result", PNone); (str "id", PInt 1)] PNone);
    reflexivity.
Defined.

(** X17.  A code that is not a number equals no entry of the table,
    also when it is the text of one: [do] raises the generic ValueError,
    whose message has the code and the message as [str] prints them. *)
Theorem do_code_not_a_number
        (w : World) (url method : pystr) (param : pyval) (st : state)
        (kvs : list (pystr * pyval)) (error : list pyval)
        (code message : pyval) :
  w_post w (trace st) url (json_request method param)
    = Return (Json (PDict kvs)) ->
  assoc (str "error") kvs = Some (PList error) ->
  index error 0 = Some code ->
  index error (-1) = Some message ->
  is_number code = false ->
  do w url method param st =
  (Raise (Exc ValueError
              (PStr (str "Error " ++ format w code ++ str ": " ++
                     format w message))),
   did st [EvPost url (json_request method param)]).
Proof.
  intros Hpost Herr Hcode Hmsg Hnum.
  rewrite do_run, Hpost. cbn [json_loads].
  rewrite (normalize_error w param kvs Herr Hcode Hmsg).
  now rewrite !(eq_int_not_number _ _ Hnum).
Qed.

Lemma do_code_not_a_number_witness :
  do (answering (rpc_error [PStr (str "12"); PStr (str "No Such Method")]))
     ENDPOINT (str "nonexistentMethod") (PList []) (fresh []) =
  (Raise (Exc ValueError
              (PStr (str "Error " ++
                     format (answering
                               (rpc_error [PStr (str "12");
                                           PStr (str "No Such Method")]))
                            (PStr (str "12")) ++
                     str ": " ++
                     format (answering
                               (rpc_error [PStr (str "12");
                                           PStr (str "No Such Method")]))
                            (PStr (str "No Such Method"))))),
   did (fresh [])
       [EvPost ENDPOINT (json_request (str "nonexistentMethod") (PList []))]).
Proof.
  apply (@do_code_not_a_number
           (answering (rpc_error [PStr (str "12"); PStr (str "No Such Method")]))
           ENDPOINT (str "nonexistentMethod") (PList []) (fresh [])
           [(str "error", PList [PStr (str "12"); PStr (str "No Such Method")]);
            (str "id", PInt 1)]
           [PStr (str "12"); PStr (str "No Such Method")]
           (PStr (str "12")) (PStr (str "No Such Method")));
    reflexivity.
Defined.

(** X18.  A value that is not a list and the one-element list of it are
    the same call on the wire: the same request is posted and the same
    reply parsed, and whatever [do] returns for the one it returns for
    the other. *)
Theorem scalar_or_singleton
        (w : World) (url method : pystr) (param : pyval) (st : state) :
  is_list param = false ->
  _post_request w url method param st
    = _post_request w url method (PList [param]) st /\
  snd (do w url method param st) = snd (do w url method (PList [param]) st) /\
  forall r,
    fst (do w url method param st) = Return r <->
    fst (do w url method (PList [param]) st) = Return r.
Proof.
  intros Hlist.
  assert (Hreq : json_request method param = json_request method (PList [param])).
  { destruct param; try reflexivity. discriminate Hlist. }
  split; [|split].
  - unfold _post_request. now rewrite Hreq.
  - now rewrite !do_run, Hreq.
  - intros r. rewrite !do_run, Hreq. cbn [fst].
    destruct (w_post w (trace st) url (json_request method (PList [param])))
      as [c|e]; [|tauto].
    destruct (json_loads c) as [response|e]; [|tauto].
    split; apply normalize_return.
Qed.

Lemma scalar_or_singleton_witness :
  _post_request sony ENDPOINT (str "setShootMode") (PStr (str "still")) (fresh [])
    = _post_request sony ENDPOINT (str "setShootMode")
                    (PList [PStr (str "still")]) (fresh []) /\
  snd (do sony ENDPOINT (str "setShootMode") (PStr (str "still")) (fresh []))
    = snd (do sony ENDPOINT (str "setShootMode")
              (PList [PStr (str "still")]) (fresh [])) /\
  forall r,
    fst (do sony ENDPOINT (str "setShootMode") (PStr (str "still")) (fresh []))
      = Return r <->
    fst (do sony ENDPOINT (str "setShootMode")
            (PList [PStr (str "still")]) (fresh [])) = Return r.
Proof.
  apply (@scalar_or_singleton sony ENDPOINT (str "setShootMode")
           (PStr (str "still")) (fresh [])).
  reflexivity.
Defined.

(* ===================================================================== *)
(** ** More on construction and [info]                                    *)
(* ===================================================================== *)

Lemma opt_str_injective (a b : option pystr) : opt_str a = opt_str b -> a = b.
Proof. destruct a, b; simpl; congruence. Qed.

Lemma NoDup_map_opt_str (keys : list (option pystr)) :
  NoDup keys -> NoDup (List.map opt_str keys).
Proof.
  induction 1 as [|k keys Hnot _ IH]; simpl; constructor; [|assumption].
  intros Hin. apply in_map_iff in Hin as (k' & Heq & Hk').
  apply opt_str_injective in Heq. now subst.
Qed.

(** X19.  A camera that answers getAvailableApiList with an empty
    result, or with no result member, cannot be constructed: [do] gives
    True for it, and the test of "startRecMode" in True raises
    TypeError, after the one POST and before any startRecMode call. *)
Theorem init_empty_api_list
        (w : World) (network_interface : option pystr) (st s1 s2 : state)
        (url endpoint : pystr)
        (descr : option pystr * option pystr * services_dict)
        (kvs : list (pystr * pyval)) :
  discover w network_interface st = (Return url, s1) ->
  connect w url s1 = (Return descr, s2) ->
  endpoint_of (snd descr) = Return endpoint ->
  w_post w (trace s2) endpoint (json_request (str "getAvailableApiList") (PList []))
    = Return (Json (PDict kvs)) ->
  assoc (str "error") kvs = None ->
  assoc (str "result") kvs = None \/ assoc (str "result") kvs = Some (PList []) ->
  __init__ w network_interface st =
  (Raise (Lib TypeError),
   did s2 [EvPost endpoint (json_request (str "getAvailableApiList") (PList []))]).
Proof.
  intros Hd Hc He Hpost Herr Hres.
  rewrite init_run, Hd, Hc, He. unfold GET_API_LIST.
  rewrite do_run, Hpost. cbn [json_loads].
  rewrite (normalize_success w (PList []) kvs Herr).
  destruct Hres as [-> | ->]; reflexivity.
Qed.

Lemma init_empty_api_list_witness :
  __init__ laconic None (fresh [Utf8 SSDP_REPLY]) =
  (Raise (Lib TypeError),
   did (snd (connect laconic DD_XML
               (snd (discover laconic None (fresh [Utf8 SSDP_REPLY])))))
       [EvPost ENDPOINT (json_request (str "getAvailableApiList") (PList []))]).
Proof.
  apply (@init_empty_api_list laconic None (fresh [Utf8 SSDP_REPLY])
           (snd (discover laconic None (fresh [Utf8 SSDP_REPLY])))
           (snd (connect laconic DD_XML
                   (snd (discover laconic None (fresh [Utf8 SSDP_REPLY])))))
           DD_XML ENDPOINT
           (Some (str "Cam1"), Some (str "2.0"),
            [(Some (str "camera"), Some (str "http://cam/sony"))])
           [(str "result", PList []); (str "id", PInt 1)]);
    try reflexivity.
  now right.
Defined.

(** X20.  When the "camera" entry of the descriptor has an empty URL
    element, the services mapping binds "camera" to None, and
    construction fails at the derivation of the endpoint with
    TypeError, before any POST. *)
Theorem init_camera_url_missing
        (w : World) (network_interface : option pystr) (st s1 s2 : state)
        (url : pystr) (descr : option pystr * option pystr * services_dict) :
  discover w network_interface st = (Return url, s1) ->
  connect w url s1 = (Return descr, s2) ->
  dict_lookup (snd descr) (Some (str "camera")) = Some None ->
  __init__ w network_interface st = (Raise (Lib TypeError), s2) /\
  trace s2 = trace s1 ++ [EvGet url None].
Proof.
  intros Hd Hc Hnone. split.
  - rewrite init_run, Hd, Hc. unfold endpoint_of. now rewrite Hnone.
  - pose proof (connect_trace w url s1) as Ht. rewrite Hc in Ht.
    cbn [snd] in Ht. now rewrite Ht.
Qed.

Lemma init_camera_url_missing_witness :
  __init__ empty_url None (fresh [Utf8 SSDP_REPLY]) =
  (Raise (Lib TypeError),
   snd (connect empty_url DD_XML
          (snd (discover empty_url None (fresh [Utf8 SSDP_REPLY]))))) /\
  trace (snd (connect empty_url DD_XML
                (snd (discover empty_url None (fresh [Utf8 SSDP_REPLY])))))
  = trace (snd (discover empty_url None (fresh [Utf8 SSDP_REPLY]))) ++
    [EvGet DD_XML None].
Proof.
  apply (@init_camera_url_missing empty_url None (fresh [Utf8 SSDP_REPLY])
           (snd (discover empty_url None (fresh [Utf8 SSDP_REPLY])))
           (snd (connect empty_url DD_XML
                   (snd (discover empty_url None (fresh [Utf8 SSDP_REPLY])))))
           DD_XML
           (Some (str "Cam1"), Some (str "2.0"), [(Some (str "camera"), None)]));
    reflexivity.
Defined.

(** X21.  For a camera that was constructed, [info] lists under
    "supported services" the keys of the services mapping: no type
    twice, "camera" among them; and under "available apis" it gives what
    getAvailableApiList returned at construction. *)
Theorem info_after_construction
        (w : World) (network_interface : option pystr) (st st' : state)
        (cam : Camera) :
  __init__ w network_interface st = (Return cam, st') ->
  exists supported s2 s3,
    getitem_key (info cam) (str "supported services") = Return (PList supported) /\
    supported = List.map opt_str (List.map fst (services cam)) /\
    NoDup supported /\
    In (PStr (str "camera")) supported /\
    do w (camera_endpoint_url cam) (str "getAvailableApiList") (PList []) s2
      = (Return (available_apis cam), s3) /\
    getitem_key (info cam) (str "available apis") = Return (available_apis cam).
Proof.
  intros Hinit.
  destruct (init_success _ _ _ Hinit)
    as (s1 & s2 & s3 & start & _ & Hc & He & Ha & _).
  exists (List.map opt_str (List.map fst (services cam))), s2, s3.
  split; [rewrite map_map; reflexivity|].
  split; [reflexivity|]. split; [|split; [|split]].
  - apply NoDup_map_opt_str.
    destruct (connect_success _ _ _ Hc) as (xml & sl & _ & _ & _ & _ & _ & ->).
    apply fold_add_entry_NoDup. constructor.
  - change (PStr (str "camera")) with (opt_str (Some (str "camera"))).
    apply in_map. apply dict_lookup_keys.
    unfold endpoint_of in He.
    destruct (dict_lookup (services cam) (Some (str "camera")));
      [discriminate|discriminate He].
  - exact Ha.
  - reflexivity.
Qed.

Lemma info_after_construction_witness :
  exists supported s2 s3,
    getitem_key (info CAM1) (str "supported services") = Return (PList supported) /\
    supported = List.map opt_str (List.map fst (services CAM1)) /\
    NoDup supported /\
    In (PStr (str "camera")) supported /\
    do sony (camera_endpoint_url CAM1) (str "getAvailableApiList") (PList []) s2
      = (Return (available_apis CAM1), s3) /\
    getitem_key (info CAM1) (str "available apis") = Return (available_apis CAM1).
Proof.
  apply (@info_after_construction sony None (fresh [Utf8 SSDP_REPLY])
           (snd (__init__ sony None (fresh [Utf8 SSDP_REPLY]))) CAM1).
  reflexivity.
Defined.

(** X22.  When getAvailableApiList results in a single text, [do]
    unwraps it and the test of "startRecMode" becomes a substring test:
    construction calls startRecMode as soon as the word occurs anywhere
    in that text. *)
Theorem init_single_text
        (w : World) (network_interface : option pystr) (st s1 s2 : state)
        (url endpoint : pystr)
        (descr : option pystr * option pystr * services_dict)
        (kvs : list (pystr * pyval)) (listed : pystr) :
  discover w network_interface st = (Return url, s1) ->
  connect w url s1 = (Return descr, s2) ->
  endpoint_of (snd descr) = Return endpoint ->
  w_post w (trace s2) endpoint (json_request (str "getAvailableApiList") (PList []))
    = Return (Json (PDict kvs)) ->
  assoc (str "error") kvs = None ->
  assoc (str "result") kvs = Some (PList [PStr listed]) ->
  str_in (str "startRecMode") listed = true ->
  snd (__init__ w network_interface st) =
  did s2 [EvPost endpoint (json_request (str "getAvailableApiList") (PList []));
          EvPost endpoint (json_request (str "startRecMode") (PList []))].
Proof.
  intros Hd Hc He Hpost Herr Hres Hin.
  rewrite init_run, Hd, Hc, He. unfold GET_API_LIST, START_REC_MODE.
  rewrite do_run, Hpost. cbn [json_loads].
  rewrite (normalize_success w (PList []) kvs Herr), Hres.
  cbn [py_len List.length getitem_index]. rewrite index_single.
  cbn [py_in]. rewrite Hin. rewrite do_run.
  unfold did. cbn [trace inbox].
  destruct (w_post w _ endpoint (json_request (str "startRecMode") (PList [])))
    as [c|e]; cbn [snd].
  - destruct (json_loads c) as [response|e]; cbn [snd].
    + destruct (normalize w (PList []) response); cbn [snd];
        now rewrite <- app_assoc.
    + now rewrite <- app_assoc.
  - now rewrite <- app_assoc.
Qed.

Lemma init_single_text_witness :
  snd (__init__ terse None (fresh [Utf8 SSDP_REPLY])) =
  did (snd (connect terse DD_XML
              (snd (discover terse None (fresh [Utf8 SSDP_REPLY])))))
      [EvPost ENDPOINT (json_request (str "getAvailableApiList") (PList []));
       EvPost ENDPOINT (json_request (str "startRecMode") (PList []))].
Proof.
  apply (@init_single_text terse None (fresh [Utf8 SSDP_REPLY])
           (snd (discover terse None (fresh [Utf8 SSDP_REPLY])))
           (snd (connect terse DD_XML
                   (snd (discover terse None (fresh [Utf8 SSDP_REPLY])))))
           DD_XML ENDPOINT
           (Some (str "Cam1"), Some (str "2.0"),
            [(Some (str "camera"), Some (str "http://cam/sony"))])
           [(str "result", PList [PStr (str "actStartRecMode,startRecModeV2")]);
            (str "id", PInt 1)]
           (str "actStartRecMode,startRecModeV2"));
    reflexivity.
Defined.
